(** * notr: the synchronisation protocol of [notr/sync.py]

    A shallow embedding of [SyncService.sync] and of its helpers
    [_file_digest], [_format_message] and [current_timestamp], together with
    a model of the collaborators the module imports (the store behind
    [DatabaseManager], the transport behind [Backend], [DatabaseMerger] and
    [SyncProgress]).  The collaborators' modules are not part of the file
    under study; their model follows the interface contracts of the design
    document and is marked as such.

    Python integers are [Z], [bytes] is [list byte], [str] is [string], a
    metadata table is a [gmap string string].  Statements that raise are
    modelled by an outcome type in a state monad over the [World]; every call
    to a collaborator is recorded in the world's [trace], in program order. *)

From Stdlib Require Import ZArith Strings.Byte Ascii String DecimalString.
From stdpp Require Import gmap strings list.

Open Scope Z_scope.

(** ** hashlib.sha256

    SHA-256 as laid down in FIPS 180-4, on 32-bit words kept in [Z]. *)
Module SHA256.

Definition word (x : Z) : Z := Z.land x (Z.ones 32).
Definition add32 (x y : Z) : Z := word (x + y).
Definition rotr (n x : Z) : Z :=
  Z.lor (Z.shiftr x n) (word (Z.shiftl x (32 - n))).
Definition choose (e f g : Z) : Z :=
  Z.lxor (Z.land e f) (Z.land (Z.lxor e (Z.ones 32)) g).
Definition majority (a b c : Z) : Z :=
  Z.lxor (Z.lxor (Z.land a b) (Z.land a c)) (Z.land b c).
Definition big_sigma0 (x : Z) : Z :=
  Z.lxor (Z.lxor (rotr 2 x) (rotr 13 x)) (rotr 22 x).
Definition big_sigma1 (x : Z) : Z :=
  Z.lxor (Z.lxor (rotr 6 x) (rotr 11 x)) (rotr 25 x).
Definition small_sigma0 (x : Z) : Z :=
  Z.lxor (Z.lxor (rotr 7 x) (rotr 18 x)) (Z.shiftr x 3).
Definition small_sigma1 (x : Z) : Z :=
  Z.lxor (Z.lxor (rotr 17 x) (rotr 19 x)) (Z.shiftr x 10).

Definition hex_digit (c : ascii) : Z :=
  let n := Z.of_nat (nat_of_ascii c) in
  if (48 <=? n) && (n <=? 57) then n - 48 else n - 87.

(** Reads a run of lower-case hexadecimal digits as 32-bit words, eight
    digits a word. *)
Fixpoint hex_words (acc : Z) (k : nat) (s : string) : list Z :=
  match s with
  | EmptyString => []
  | String c rest =>
      let acc' := 16 * acc + hex_digit c in
      match k with
      | O => acc' :: hex_words 0 7 rest
      | S k' => hex_words acc' k' rest
      end
  end.

Definition round_constants : list Z := hex_words 0 7
  ("428a2f9871374491b5c0fbcfe9b5dba53956c25b59f111f1923f82a4ab1c5ed5" ++
   "d807aa9812835b01243185be550c7dc372be5d7480deb1fe9bdc06a7c19bf174" ++
   "e49b69c1efbe47860fc19dc6240ca1cc2de92c6f4a7484aa5cb0a9dc76f988da" ++
   "983e5152a831c66db00327c8bf597fc7c6e00bf3d5a7914706ca635114292967" ++
   "27b70a852e1b21384d2c6dfc53380d13650a7354766a0abb81c2c92e92722c85" ++
   "a2bfe8a1a81a664bc24b8b70c76c51a3d192e819d6990624f40e3585106aa070" ++
   "19a4c1161e376c082748774c34b0bcb5391c0cb34ed8aa4a5b9cca4f682e6ff3" ++
   "748f82ee78a5636f84c878148cc7020890befffaa4506cebbef9a3f7c67178f2")%string.

Definition initial_hash : list Z := hex_words 0 7
  "6a09e667bb67ae853c6ef372a54ff53a510e527f9b05688c1f83d9ab5be0cd19"%string.

Definition byte_val (b : byte) : Z := Z.of_N (Byte.to_N b).

(** The message, the byte 0x80, zero bytes up to 56 modulo 64, and the bit
    length as eight big-endian bytes. *)
Definition pad (msg : list byte) : list Z :=
  let len := Z.of_nat (length msg) in
  let zeros := Z.to_nat ((55 - len) mod 64) in
  let bits := 8 * len in
  (byte_val <$> msg) ++ 128 :: repeat 0 zeros ++
  ((λ i, Z.land (Z.shiftr bits (8 * i)) 255) <$> [7; 6; 5; 4; 3; 2; 1; 0]).

Fixpoint be_words (bs : list Z) : list Z :=
  match bs with
  | a :: b :: c :: d :: rest =>
      (((a * 256 + b) * 256 + c) * 256 + d) :: be_words rest
  | _ => []
  end.

(** [ws] is the message schedule so far, the latest word first. *)
Fixpoint extend (n : nat) (ws : list Z) : list Z :=
  match n with
  | O => ws
  | S n' =>
      let wt := add32 (add32 (small_sigma1 (nth 1 ws 0)) (nth 6 ws 0))
                      (add32 (small_sigma0 (nth 14 ws 0)) (nth 15 ws 0)) in
      extend n' (wt :: ws)
  end.

Definition schedule (block : list Z) : list Z := rev (extend 48 (rev block)).

Definition round (st : list Z) (kw : Z * Z) : list Z :=
  match st with
  | [a; b; c; d; e; f; g; h] =>
      let t1 := add32 (add32 (add32 h (big_sigma1 e))
                             (add32 (choose e f g) kw.1)) kw.2 in
      let t2 := add32 (big_sigma0 a) (majority a b c) in
      [add32 t1 t2; a; b; c; add32 d t1; e; f; g]
  | _ => st
  end.

Definition compress (h : list Z) (block : list Z) : list Z :=
  zip_with add32 h (foldl round h (zip round_constants (schedule block))).

Fixpoint blocks (n : nat) (ws : list Z) : list (list Z) :=
  match n with
  | O => []
  | S n' =>
      match ws with
      | [] => []
      | _ => take 16 ws :: blocks n' (drop 16 ws)
      end
  end.

Definition hex_char (d : Z) : ascii :=
  ascii_of_nat (Z.to_nat (if d <? 10 then 48 + d else 87 + d)).

Fixpoint hex_of (digits : nat) (x : Z) (tail : string) : string :=
  match digits with
  | O => tail
  | S k => hex_of k (Z.shiftr x 4) (String (hex_char (Z.land x 15)) tail)
  end.

Definition digest_words (msg : list byte) : list Z :=
  let ws := be_words (pad msg) in
  foldl compress initial_hash (blocks (length ws) ws).

Definition hexdigest (msg : list byte) : string :=
  foldr (hex_of 8) EmptyString (digest_words msg).

End SHA256.

(** A [hashlib] hash object.  [update] calls are equivalent to one call with
    the concatenation of their arguments, so the object is the bytes fed to it
    so far. *)
Record sha256 := { fed : list byte }.

Definition sha256_new : sha256 := {| fed := [] |}.
Definition sha256_update (sha : sha256) (chunk : list byte) : sha256 :=
  {| fed := fed sha ++ chunk |}.
Definition sha256_hexdigest (sha : sha256) : string := SHA256.hexdigest (fed sha).

(** ** Python strings *)

(** [str(n)] and the [{n}] of an f-string, for an [int]. *)
Definition py_str (n : Z) : string := NilZero.string_of_int (Z.to_int n).

(** [sep.join(parts)] *)
Fixpoint py_join (sep : string) (parts : list string) : string :=
  match parts with
  | [] => ""
  | [p] => p
  | p :: rest => p +:+ sep +:+ py_join sep rest
  end.

Definition is_upper (c : ascii) : bool :=
  let n := nat_of_ascii c in (65 <=? n)%nat && (n <=? 90)%nat.
Definition is_lower (c : ascii) : bool :=
  let n := nat_of_ascii c in (97 <=? n)%nat && (n <=? 122)%nat.
Definition to_upper (c : ascii) : ascii :=
  if is_lower c then ascii_of_nat (nat_of_ascii c - 32) else c.
Definition to_lower (c : ascii) : ascii :=
  if is_upper c then ascii_of_nat (nat_of_ascii c + 32) else c.

Fixpoint py_lower (s : string) : string :=
  match s with
  | EmptyString => EmptyString
  | String c rest => String (to_lower c) (py_lower rest)
  end.

(** [s.capitalize()]: the first character in upper case and all the others
    in lower case. *)
Definition py_capitalize (s : string) : string :=
  match s with
  | EmptyString => EmptyString
  | String c rest => String (to_upper c) (py_lower rest)
  end.

(** [s.zfill(width)] for a string of digits. *)
Definition zfill (width : nat) (s : string) : string :=
  string_of_list_ascii (repeat "0"%char (width - String.length s)) +:+ s.

(** ** datetime *)

(** An aware [datetime] whose [tzinfo] is [timezone.utc]. *)
Record datetime := {
  year : Z; month : Z; day : Z;
  hour : Z; minute : Z; second : Z; microsecond : Z
}.

(** [dt.isoformat()]: the fraction is left out when [microsecond] is 0; the
    offset of [timezone.utc] is printed as +00:00. *)
Definition isoformat (dt : datetime) : string :=
  zfill 4 (py_str (year dt)) +:+ "-" +:+ zfill 2 (py_str (month dt)) +:+ "-" +:+
  zfill 2 (py_str (day dt)) +:+ "T" +:+ zfill 2 (py_str (hour dt)) +:+ ":" +:+
  zfill 2 (py_str (minute dt)) +:+ ":" +:+ zfill 2 (py_str (second dt)) +:+
  (if microsecond dt =? 0 then "" else "." +:+ zfill 6 (py_str (microsecond dt))) +:+
  "+00:00".

(** ** The data model of the module's interface *)

(** [backends.base.SyncDirection] *)
Inductive SyncDirection := PULL | PUSH | BOTH.

Global Instance SyncDirection_eq_dec : EqDecision SyncDirection.
Proof. solve_decision. Defined.

(** [direction in (a, b)] *)
Definition direction_in (d : SyncDirection) (ds : list SyncDirection) : bool :=
  bool_decide (d ∈ ds).

(** The statistics object returned by [DatabaseMerger.merge]. *)
Module MergeStats.
Record t := {
  local_changes : Z;
  remote_changes : Z;
  notes_merged : Z;
  notes_deleted : Z
}.
End MergeStats.

(** [backends.base.SyncResult] *)
Module SyncResult.
Record t := {
  uploaded : bool;
  downloaded : bool;
  message : string;
  merged_notes : Z;
  deleted_notes : Z;
  local_changes : Z;
  remote_changes : Z
}.
End SyncResult.

(** [SyncService._format_message] *)
Definition _format_message (stats : MergeStats.t) (uploaded downloaded : bool) : string :=
  let parts := [] in
  let parts := if uploaded then parts ++ ["uploaded changes"] else parts in
  let parts := if downloaded then parts ++ ["downloaded changes"] else parts in
  let parts :=
    if negb (MergeStats.notes_merged stats =? 0)
    then parts ++ ["merged " +:+ py_str (MergeStats.notes_merged stats) +:+ " notes"]
    else parts in
  let parts :=
    if negb (MergeStats.notes_deleted stats =? 0)
    then parts ++ ["propagated " +:+ py_str (MergeStats.notes_deleted stats) +:+ " deletions"]
    else parts in
  match parts with
  | [] => "No changes detected"
  | _ => py_capitalize (py_join ", " parts)
  end.

(** ** Exceptions and outcomes *)

Inductive exn :=
  | BackendError (msg : string)   (* [errors.BackendError] *)
  | StoreError (msg : string)     (* raised by an operation of a store *)
  | FileNotFoundError             (* a subclass of [OSError] *)
  | OSError (msg : string).

Definition is_OSError (e : exn) : bool :=
  match e with
  | FileNotFoundError | OSError _ => true
  | BackendError _ | StoreError _ => false
  end.

Inductive outcome (A : Type) :=
  | Returned (a : A)
  | Raised (e : exn).
Arguments Returned {A} a.
Arguments Raised {A} e.

(** ** The stores, the workspace and the backend *)

(** Modelled from the spec: the on-disk format and the schema of a store are
    outside the module ([db.py] is not part of it).  A database image is the
    note data, kept opaque, and the metadata table written by [set_metadata]. *)
Record Image := {
  img_rows : list byte;
  img_meta : gmap string string
}.

Definition blank : Image := {| img_rows := []; img_meta := ∅ |}.

(** Modelled from the spec: a store ([DatabaseManager]) is a main file at a
    stable path and a durability log beside it.  Writes go to the log; reading
    the raw file sees them only after [checkpoint] has flushed the log into
    the main file.  [wal] holds the database as of the last write while writes
    are pending. *)
Record Store := {
  main_file : option Image;
  wal : option Image
}.

Definition current (s : Store) : option Image :=
  match wal s with
  | Some img => Some img
  | None => main_file s
  end.

Definition content (s : Store) : Image := default blank (current s).

Definition write (img : Image) (s : Store) : Store :=
  {| main_file := main_file s; wal := Some img |}.

(** Modelled from the spec: [ensureInitialized] creates the minimal schema
    when the store has no database yet. *)
Definition store_ensure_initialized (s : Store) : Store :=
  match current s with
  | Some _ => s
  | None => {| main_file := Some blank; wal := wal s |}
  end.

(** Modelled from the spec: [checkpoint] flushes the durability log to the
    main file. *)
Definition store_checkpoint (s : Store) : Store :=
  {| main_file := current s; wal := None |}.

(** Modelled from the spec: [setMetadata(key, value)]. *)
Definition store_set_metadata (key value : string) (s : Store) : Store :=
  write {| img_rows := img_rows (content s);
           img_meta := <[key := value]> (img_meta (content s)) |} s.

Definition store_get_metadata (key : string) (s : Store) : option string :=
  img_meta (content s) !! key.

(** Modelled from the spec: [replaceWith(path)] substitutes the entire
    content of the store by the file at [path], atomically. *)
Definition store_replace_with (src : Image) (s : Store) : Store :=
  {| main_file := Some src; wal := None |}.

(** The two files [sync] reads directly. *)
Inductive Path := local_path | remote_temp.

(** The two stores [sync] operates on. *)
Inductive StoreId := self_db | remote_db.

Inductive ProgressCall :=
  | set_label (label : string)
  | start (msg : string)
  | update (msg : string)
  | stop
  | summary (uploaded downloaded : bool)
            (local_changes remote_changes merged_notes deleted_notes : Z).

(** The calls [sync] makes, as they are recorded in the trace. *)
Inductive Event :=
  | EvMkdtemp
  | EvDigest (path : Path)
  | EvDownload
  | EvOpen
  | EvEnsureInitialized
  | EvMerge
  | EvCheckpoint (db : StoreId)
  | EvUpload
  | EvReplaceWith
  | EvSetMetadata (key value : string)
  | EvUnlink
  | EvRmdir
  | EvProgress (call : ProgressCall).

Global Instance Path_eq_dec : EqDecision Path.
Proof. solve_decision. Defined.
Global Instance StoreId_eq_dec : EqDecision StoreId.
Proof. solve_decision. Defined.
Global Instance ProgressCall_eq_dec : EqDecision ProgressCall.
Proof. solve_decision. Defined.
Global Instance Event_eq_dec : EqDecision Event.
Proof. solve_decision. Defined.

(** The places of [sync] where a collaborator may raise. *)
Inductive Site :=
  | at_read_local                (* path.open("rb") in _file_digest(local_path) *)
  | at_read_remote               (* path.open("rb") in _file_digest(remote_temp) *)
  | at_download                  (* self.backend.download(remote_temp) *)
  | at_open                      (* DatabaseManager(remote_temp) *)
  | at_ensure_initialized        (* remote_db.ensure_initialized() *)
  | at_merge                     (* merger.merge() *)
  | at_checkpoint_local          (* self.db.checkpoint(), after the merge *)
  | at_checkpoint_remote         (* remote_db.checkpoint() *)
  | at_upload                    (* self.backend.upload(remote_temp) *)
  | at_replace_with              (* self.db.replace_with(remote_temp) *)
  | at_checkpoint_replaced       (* self.db.checkpoint(), after the replace *)
  | at_set_last_sync_at          (* self.db.set_metadata("last_sync_at", ...) *)
  | at_set_last_sync_direction.  (* self.db.set_metadata("last_sync_direction", ...) *)

(** What one call of [sync] can see and change.  [workspace] is the
    directory made by [mkdtemp]: [None] when it does not exist, otherwise the
    store whose main file is [remote_temp]; the directory is empty when
    neither the main file nor a log is there. *)
Record World := {
  local_store : Store;               (* self.db, whose main file is local_path *)
  backend_snapshot : option Image;   (* the remote snapshot kept by self.backend *)
  workspace : option Store;
  progress_label : string;           (* self.progress.label *)
  utc_now : datetime;                (* the reading of datetime.now(timezone.utc) *)
  trace : list Event
}.

Definition with_local_store (s : Store) (w : World) : World :=
  {| local_store := s; backend_snapshot := backend_snapshot w;
     workspace := workspace w; progress_label := progress_label w;
     utc_now := utc_now w; trace := trace w |}.
Definition with_backend_snapshot (b : option Image) (w : World) : World :=
  {| local_store := local_store w; backend_snapshot := b;
     workspace := workspace w; progress_label := progress_label w;
     utc_now := utc_now w; trace := trace w |}.
Definition with_workspace (d : option Store) (w : World) : World :=
  {| local_store := local_store w; backend_snapshot := backend_snapshot w;
     workspace := d; progress_label := progress_label w;
     utc_now := utc_now w; trace := trace w |}.
Definition with_progress_label (l : string) (w : World) : World :=
  {| local_store := local_store w; backend_snapshot := backend_snapshot w;
     workspace := workspace w; progress_label := l;
     utc_now := utc_now w; trace := trace w |}.
Definition with_trace (t : list Event) (w : World) : World :=
  {| local_store := local_store w; backend_snapshot := backend_snapshot w;
     workspace := workspace w; progress_label := progress_label w;
     utc_now := utc_now w; trace := t |}.

(** ** The monad of [sync]: state and exceptions *)

Definition M (A : Type) : Type := World → outcome A * World.

Global Instance M_ret : MRet M := λ A a w, (Returned a, w).
Global Instance M_bind : MBind M := λ A B f m w,
  match m w with
  | (Returned a, w') => f a w'
  | (Raised e, w') => (Raised e, w')
  end.

Definition get : M World := λ w, (Returned w, w).
Definition modify (f : World → World) : M unit := λ w, (Returned tt, f w).
Definition raise {A} (e : exn) : M A := λ w, (Raised e, w).

(** [try: body finally: final] *)
Definition try_finally {A} (body : M A) (final : M unit) : M A := λ w,
  let '(r, w1) := body w in
  match final w1 with
  | (Returned _, w2) => (r, w2)
  | (Raised e, w2) => (Raised e, w2)
  end.

(** [try: m except OSError: pass] *)
Definition except_OSError_pass (m : M unit) : M unit := λ w,
  match m w with
  | (Raised e, w') => if is_OSError e then (Returned tt, w') else (Raised e, w')
  | r => r
  end.

Definition log (e : Event) : M unit :=
  modify (λ w, with_trace (trace w ++ [e]) w).

(** ** SyncService *)

Section SyncService.

(** [DatabaseMerger(local, remote).merge()], out of the module's scope: from
    the databases of the two stores to the statistics and to the databases it
    leaves in them. *)
Variable merge : Image → Image → MergeStats.t * Image * Image.

(** The bytes of the file that holds a database image (the on-disk format of
    a store). *)
Variable serialize : Image → list byte.

(** [str(path)] *)
Variable path_str : Path → string.

(** Which collaborator calls raise, and what. *)
Variable fault : Site → option exn.

(** A call to a collaborator at a given place: it is recorded, then raises
    if the collaborator fails there. *)
Definition call (s : Site) (e : Event) : M unit :=
  log e ;;
  match fault s with
  | Some x => raise x
  | None => mret tt
  end.

(** *** The file system *)

Definition file_at (path : Path) (w : World) : option Image :=
  match path with
  | local_path => main_file (local_store w)
  | remote_temp => workspace w ≫= main_file
  end.

(** The content of the file at [path], [None] when there is no such file. *)
Definition read_bytes (path : Path) (w : World) : option (list byte) :=
  serialize <$> file_at path w.

(** [path.exists()] *)
Definition path_exists (path : Path) : M bool :=
  w ← get; mret (bool_decide (is_Some (file_at path w))).

(** [path.stat().st_size] *)
Definition stat_st_size (path : Path) : M Z :=
  w ← get;
  match read_bytes path w with
  | Some bytes => mret (Z.of_nat (length bytes))
  | None => raise FileNotFoundError
  end.

(** [tempfile.mkdtemp(prefix="notr-sync-")]: a new, empty directory. *)
Definition mkdtemp : M unit :=
  log EvMkdtemp ;;
  modify (with_workspace (Some {| main_file := None; wal := None |})).

(** [temp_dir.exists()] *)
Definition temp_dir_exists : M bool :=
  w ← get; mret (bool_decide (is_Some (workspace w))).

(** [remote_temp.unlink()] *)
Definition unlink_remote_temp : M unit :=
  log EvUnlink ;;
  w ← get;
  match workspace w with
  | Some d =>
      match main_file d with
      | Some _ => modify (with_workspace (Some {| main_file := None; wal := wal d |}))
      | None => raise FileNotFoundError
      end
  | None => raise FileNotFoundError
  end.

(** [temp_dir.rmdir()]: only an empty directory is removed. *)
Definition rmdir_temp_dir : M unit :=
  log EvRmdir ;;
  w ← get;
  match workspace w with
  | Some {| main_file := None; wal := None |} => modify (with_workspace None)
  | Some _ => raise (OSError "Directory not empty")
  | None => raise FileNotFoundError
  end.

(** *** _file_digest *)

Definition CHUNK : nat := 1024 * 1024.

(** [for chunk in iter(lambda: handle.read(1024 * 1024), b""): sha.update(chunk)],
    the open file being the bytes not read yet.  A file of [n] bytes is read
    in at most [n] chunks. *)
Fixpoint read_chunks (fuel : nat) (handle : list byte) (sha : sha256) : sha256 :=
  match fuel with
  | O => sha
  | S fuel' =>
      match take CHUNK handle with
      | [] => sha
      | chunk => read_chunks fuel' (drop CHUNK handle) (sha256_update sha chunk)
      end
  end.

(** [path.open("rb")]: the bytes of the file.  A path that exists may still
    not open for reading (it is a directory, or the permission is denied);
    [open] then raises what [fault] says, an [OSError] of some kind. *)
Definition open_site (path : Path) : Site :=
  match path with
  | local_path => at_read_local
  | remote_temp => at_read_remote
  end.

Definition open_rb (path : Path) : M (list byte) :=
  w ← get;
  match read_bytes path w with
  | None => raise FileNotFoundError
  | Some bytes =>
      match fault (open_site path) with
      | Some x => raise x
      | None => mret bytes
      end
  end.

Definition _file_digest (path : Path) : M (option string) :=
  log (EvDigest path) ;;
  file_exists ← path_exists path;
  if negb file_exists then mret None
  else
    let sha := sha256_new in
    handle ← open_rb path;
    let sha := read_chunks (length handle) handle sha in
    mret (Some (sha256_hexdigest sha)).

(** *** current_timestamp *)

Definition current_timestamp : M string :=
  w ← get; mret (isoformat (utc_now w)).

(** *** self.progress, self.backend, the stores and the merger *)

(** Modelled from the spec: the progress collaborator is purely
    observational; it keeps a label. *)
Definition progress (c : ProgressCall) : M unit :=
  log (EvProgress c) ;;
  match c with
  | set_label l => modify (with_progress_label l)
  | _ => mret tt
  end.

(** Modelled from the spec: [download(destinationPath)] returns true iff a
    remote snapshot existed and was copied to the destination. *)
Definition backend_download : M bool :=
  call at_download EvDownload ;;
  w ← get;
  match backend_snapshot w, workspace w with
  | Some img, Some d =>
      modify (with_workspace (Some {| main_file := Some img; wal := wal d |})) ;;
      mret true
  | Some _, None => raise FileNotFoundError
  | None, _ => mret false
  end.

(** Modelled from the spec: [upload(sourcePath)] stores the file as the
    remote snapshot. *)
Definition backend_upload : M unit :=
  call at_upload EvUpload ;;
  w ← get;
  match file_at remote_temp w with
  | Some img => modify (with_backend_snapshot (Some img))
  | None => raise FileNotFoundError
  end.

(** Applies an operation to one of the two stores; the store in the
    workspace is gone when its directory is. *)
Definition on_store (db : StoreId) (f : Store → Store) : M unit :=
  w ← get;
  match db with
  | self_db => modify (with_local_store (f (local_store w)))
  | remote_db =>
      match workspace w with
      | Some d => modify (with_workspace (Some (f d)))
      | None => raise FileNotFoundError
      end
  end.

(** [remote_db = DatabaseManager(remote_temp)] *)
Definition open_remote_db : M unit := call at_open EvOpen.

(** [remote_db.ensure_initialized()] *)
Definition ensure_initialized : M unit :=
  call at_ensure_initialized EvEnsureInitialized ;;
  on_store remote_db store_ensure_initialized.

(** [db.checkpoint()] *)
Definition checkpoint (s : Site) (db : StoreId) : M unit :=
  call s (EvCheckpoint db) ;;
  on_store db store_checkpoint.

(** [self.db.replace_with(remote_temp)] *)
Definition replace_with_remote_temp : M unit :=
  call at_replace_with EvReplaceWith ;;
  w ← get;
  match file_at remote_temp w with
  | Some img => on_store self_db (store_replace_with img)
  | None => raise FileNotFoundError
  end.

(** [self.db.set_metadata(key, value)] *)
Definition set_metadata (s : Site) (key value : string) : M unit :=
  call s (EvSetMetadata key value) ;;
  on_store self_db (store_set_metadata key value).

(** [DatabaseMerger(self.db, remote_db).merge()] *)
Definition merger_merge : M MergeStats.t :=
  call at_merge EvMerge ;;
  w ← get;
  match workspace w with
  | Some d =>
      let '(stats, local', remote') := merge (content (local_store w)) (content d) in
      modify (with_local_store (write local' (local_store w))) ;;
      modify (with_workspace (Some (write remote' d))) ;;
      mret stats
  | None => raise FileNotFoundError
  end.

(** [_debug_summary]: with [DEBUG_SYNC] set it runs read-only queries and
    prints; whatever it raises is caught.  It leaves the world as it is. *)
Definition _debug_summary (label : string) (db : StoreId) : M unit := mret tt.

(** *** sync *)

Definition sync (direction : SyncDirection) (context : string) : M SyncResult.t :=
  mkdtemp ;;
  let remote_exists := false in
  w ← get;
  let previous_label := progress_label w in
  progress (set_label context) ;;

  local_digest_before ← _file_digest local_path;

  try_finally
    (progress (start "Connecting to backend...") ;;
     remote_exists ← backend_download;
     (if bool_decide (direction = PULL) && negb remote_exists
      then raise (BackendError "Remote database not found for pull sync")
      else mret tt) ;;

     progress (update ("Preparing merge (remote path: " +:+ path_str remote_temp +:+ ")...")) ;;
     open_remote_db ;;
     ensure_initialized ;;
     _debug_summary "Remote before merge" remote_db ;;
     _debug_summary "Local before merge" self_db ;;

     progress (update "Merging changes...") ;;
     local_size ← stat_st_size local_path;
     remote_size ← stat_st_size remote_temp;
     progress (update ("Local db at " +:+ path_str local_path +:+ " (size="
                       +:+ py_str local_size +:+ " bytes); remote db size="
                       +:+ py_str remote_size +:+ " bytes")) ;;

     stats ← merger_merge;
     _debug_summary "Local after merge" self_db ;;
     _debug_summary "Remote after merge" remote_db ;;

     remote_digest ← (if remote_exists then _file_digest remote_temp else mret None);

     checkpoint at_checkpoint_local self_db ;;
     checkpoint at_checkpoint_remote remote_db ;;

     let uploaded := false in
     let downloaded := MergeStats.local_changes stats >? 0 in

     (if negb (MergeStats.local_changes stats =? 0)
      then progress (update ("Applied " +:+ py_str (MergeStats.local_changes stats)
                             +:+ " change"
                             +:+ (if negb (MergeStats.local_changes stats =? 1) then "s" else "")
                             +:+ " locally"))
      else mret tt) ;;

     let should_upload := direction_in direction [PUSH; BOTH] in
     let remote_changed := (MergeStats.remote_changes stats >? 0) || negb remote_exists in
     uploaded ← (if should_upload && (remote_changed || bool_decide (direction = PUSH))
                 then progress (update "Uploading merged database...") ;;
                      backend_upload ;;
                      mret true
                 else mret uploaded);

     downloaded ← (if negb downloaded
                      && direction_in direction [PULL; BOTH]
                      && remote_exists
                      && bool_decide (remote_digest ≠ None)
                      && bool_decide (remote_digest ≠ local_digest_before)
                   then progress (update "Applying remote snapshot...") ;;
                        replace_with_remote_temp ;;
                        checkpoint at_checkpoint_replaced self_db ;;
                        _debug_summary "Local after applying remote snapshot" self_db ;;
                        mret true
                   else mret downloaded);

     now ← current_timestamp;
     set_metadata at_set_last_sync_at "last_sync_at" now ;;
     (if uploaded
      then set_metadata at_set_last_sync_direction "last_sync_direction" "upload"
      else if downloaded
      then set_metadata at_set_last_sync_direction "last_sync_direction" "download"
      else set_metadata at_set_last_sync_direction "last_sync_direction" "noop") ;;

     let message := _format_message stats uploaded downloaded in
     progress (summary uploaded downloaded
                       (MergeStats.local_changes stats) (MergeStats.remote_changes stats)
                       (MergeStats.notes_merged stats) (MergeStats.notes_deleted stats)) ;;
     mret {| SyncResult.uploaded := uploaded;
             SyncResult.downloaded := downloaded;
             SyncResult.message := message;
             SyncResult.merged_notes := MergeStats.notes_merged stats;
             SyncResult.deleted_notes := MergeStats.notes_deleted stats;
             SyncResult.local_changes := MergeStats.local_changes stats;
             SyncResult.remote_changes := MergeStats.remote_changes stats |})
    (progress stop ;;
     progress (set_label previous_label) ;;
     file_exists ← path_exists remote_temp;
     (if file_exists : bool then unlink_remote_temp else mret tt) ;;
     dir_exists ← temp_dir_exists;
     (if dir_exists : bool then except_OSError_pass rmdir_temp_dir else mret tt)).

End SyncService.

(** ** The world after the block under [finally]

    What the release of the workspace amounts to: the progress display is
    stopped and gets its label back, the file [remote_temp] is unlinked when
    it exists, and the directory is removed unless the log of the store is
    in it still. *)
Definition released (previous_label : string) (w : World) : World :=
  {| local_store := local_store w;
     backend_snapshot := backend_snapshot w;
     workspace :=
       match workspace w with
       | Some {| main_file := _; wal := Some log |} =>
           Some {| main_file := None; wal := Some log |}
       | _ => None
       end;
     progress_label := previous_label;
     utc_now := utc_now w;
     trace :=
       trace w ++ [EvProgress stop; EvProgress (set_label previous_label)]
       ++ (if bool_decide (is_Some (workspace w ≫= main_file)) then [EvUnlink] else [])
       ++ (if bool_decide (is_Some (workspace w)) then [EvRmdir] else []) |}.

(** ** Reading a call off two worlds *)

(** The calls recorded between the world [w] before and [w'] after. *)
Definition calls (w w' : World) : list Event :=
  drop (length (trace w)) (trace w').

(** A trace without the calls to [self.progress]. *)
Fixpoint collaborator_calls (t : list Event) : list Event :=
  match t with
  | [] => []
  | EvProgress _ :: t' => collaborator_calls t'
  | e :: t' => e :: collaborator_calls t'
  end.

Section Merged.

Variable merge : Image → Image → MergeStats.t * Image * Image.
Variable serialize : Image → list byte.

(** The database of the store opened on [remote_temp], as the merge finds
    it: the snapshot fetched from the backend, or a blank database when the
    backend had none. *)
Definition fetched (w : World) : Image := default blank (backend_snapshot w).

(** What the merger returns and leaves in the two stores. *)
Definition merged_stats (w : World) : MergeStats.t :=
  (merge (content (local_store w)) (fetched w)).1.1.
Definition merged_local (w : World) : Image :=
  (merge (content (local_store w)) (fetched w)).1.2.
Definition merged_remote (w : World) : Image :=
  (merge (content (local_store w)) (fetched w)).2.

(** The values of [local_digest_before] and [remote_digest] in a call that
    starts in [w].  [remote_digest] is computed after the merge and before
    the checkpoints, when the writes of the merge are in the log of the
    store: it is the digest of the file as it was fetched. *)
Definition local_digest_before (w : World) : option string :=
  SHA256.hexdigest <$> read_bytes serialize local_path w.
Definition remote_digest (w : World) : option string :=
  (SHA256.hexdigest ∘ serialize) <$> backend_snapshot w.

(** The conditions of the upload and of the fallback replace, in the terms
    of the world the call starts in. *)
Definition uploads (direction : SyncDirection) (w : World) : bool :=
  direction_in direction [PUSH; BOTH]
  && ((MergeStats.remote_changes (merged_stats w) >? 0)
      || negb (bool_decide (is_Some (backend_snapshot w)))
      || bool_decide (direction = PUSH)).
Definition replaces (direction : SyncDirection) (w : World) : bool :=
  negb (MergeStats.local_changes (merged_stats w) >? 0)
  && direction_in direction [PULL; BOTH]
  && bool_decide (is_Some (backend_snapshot w))
  && bool_decide (remote_digest w ≠ None)
  && bool_decide (remote_digest w ≠ local_digest_before w).

End Merged.

(** Text without upper-case letters: [str.lower] leaves it as it is. *)
Fixpoint no_upper (s : string) : bool :=
  match s with
  | EmptyString => true
  | String c rest => negb (is_upper c) && no_upper rest
  end.

(** ** The formatter as the design document words it

    The clauses, in order, joined with ", ", the start capitalised; the
    fixed message when there is no clause. *)

Definition capitalize_start (s : string) : string :=
  match s with
  | EmptyString => EmptyString
  | String c rest => String (to_upper c) rest
  end.

Definition clauses (uploaded downloaded : bool) (notes_merged notes_deleted : Z) : list string :=
  (if uploaded then ["uploaded changes"] else []) ++
  (if downloaded then ["downloaded changes"] else []) ++
  (if decide (notes_merged = 0) then [] else ["merged " +:+ py_str notes_merged +:+ " notes"]) ++
  (if decide (notes_deleted = 0) then []
   else ["propagated " +:+ py_str notes_deleted +:+ " deletions"]).

Definition described_message (uploaded downloaded : bool) (stats : MergeStats.t) : string :=
  match clauses uploaded downloaded
                (MergeStats.notes_merged stats) (MergeStats.notes_deleted stats) with
  | [] => "No changes detected"
  | cs => capitalize_start (py_join ", " cs)
  end.

(** ** Sample collaborators and worlds *)

Module Sample.

(** A store format for the examples: the rows, then the metadata as
    [key=value;] entries. *)
Definition serialize (img : Image) : list byte :=
  img_rows img ++
  list_byte_of_string
    (foldr (λ kv acc, kv.1 +:+ "=" +:+ kv.2 +:+ ";" +:+ acc) "" (map_to_list (img_meta img))).

Definition path_str (p : Path) : string :=
  match p with
  | local_path => "/home/user/.notr/notr.db"
  | remote_temp => "/tmp/notr-sync-k3x9/notr.db"
  end.

Definition no_fault (s : Site) : option exn := None.

(** The store fails when the local database is flushed after the merge. *)
Definition checkpoint_fails (s : Site) : option exn :=
  match s with
  | at_checkpoint_local => Some (StoreError "database is locked")
  | _ => None
  end.

Definition notes (rows : string) : Image :=
  {| img_rows := list_byte_of_string rows; img_meta := ∅ |}.

Definition stats (local remote merged deleted : Z) : MergeStats.t :=
  {| MergeStats.local_changes := local; MergeStats.remote_changes := remote;
     MergeStats.notes_merged := merged; MergeStats.notes_deleted := deleted |}.

(** A merger that finds the local store ahead: it copies the local database
    to the remote store and leaves the local one as it is. *)
Definition merge_push (l r : Image) : MergeStats.t * Image * Image :=
  (stats 0 1 1 0, l, l).

(** A merger that finds the remote store ahead. *)
Definition merge_pull (l r : Image) : MergeStats.t * Image * Image :=
  (stats 2 0 2 0, r, r).

(** A merger that finds nothing to do. *)
Definition merge_none (l r : Image) : MergeStats.t * Image * Image :=
  (stats 0 0 0 0, l, r).

Definition nine_o_five : datetime :=
  {| year := 2024; month := 3; day := 9; hour := 7; minute := 5; second := 0;
     microsecond := 1234 |}.

Definition world (local : string) (remote : option string) : World :=
  {| local_store := {| main_file := Some (notes local); wal := None |};
     backend_snapshot := notes <$> remote;
     workspace := None;
     progress_label := "idle";
     utc_now := nine_o_five;
     trace := [] |}.

(** The local store holds one note more than the remote snapshot. *)
Definition local_ahead : World := world "milk,eggs" (Some "milk").

(** The remote snapshot holds notes the local store lacks. *)
Definition remote_ahead : World := world "milk" (Some "milk,eggs,tea").

(** No remote snapshot yet. *)
Definition first_sync : World := world "milk" None.

(** Local store and remote snapshot are the same bytes. *)
Definition in_step : World := world "milk" (Some "milk").

(** The result of a call that returned. *)
Definition returned (r : outcome SyncResult.t * World) : SyncResult.t :=
  match r.1 with
  | Returned res => res
  | Raised _ =>
      {| SyncResult.uploaded := false; SyncResult.downloaded := false;
         SyncResult.message := ""; SyncResult.merged_notes := 0;
         SyncResult.deleted_notes := 0; SyncResult.local_changes := 0;
         SyncResult.remote_changes := 0 |}
  end.

(** A call of [sync] with these collaborators. *)
Definition run (merge : Image → Image → MergeStats.t * Image * Image)
    (fault : Site → option exn) (direction : SyncDirection) (w : World) :
    outcome SyncResult.t * World :=
  sync merge serialize path_str fault direction "Sync" w.

End Sample.


(** ** Definitions for the further properties *)

(** A lower-case hexadecimal digit. *)
Definition is_hex_digit (c : ascii) : bool :=
  let n := nat_of_ascii c in
  ((48 <=? n)%nat && (n <=? 57)%nat) || ((97 <=? n)%nat && (n <=? 102)%nat).

(** A text of lower-case hexadecimal digits only. *)
Fixpoint all_hex (s : string) : bool :=
  match s with
  | EmptyString => true
  | String c rest => is_hex_digit c && all_hex rest
  end.

(** ** Relations between the world before and after a computation *)

(** Every run of [m] relates the world before to the world after by [R],
    whether it returns or raises. *)
Definition keeps {A} (R : World → World → Prop) (m : M A) : Prop :=
  ∀ w r w', m w = (r, w') → R w w'.

(** The computation has added calls to the trace, all of them in [P], and has
    left the snapshot of the backend alone unless [upload] is among them. *)
Definition run_of (P : Event → Prop) (w w' : World) : Prop :=
  ∃ l, trace w' = trace w ++ l
       ∧ Forall P l
       ∧ (EvUpload ∉ l → backend_snapshot w' = backend_snapshot w).

(** What a call may do for its direction: a PULL call does not upload, a PUSH
    call does not replace the local store. *)
Definition permits (d : SyncDirection) (e : Event) : bool :=
  match d, e with
  | PULL, EvUpload => false
  | PUSH, EvReplaceWith => false
  | _, _ => true
  end.

(** Sample failures of the transport, and a local store without a file. *)
Module Faulty.



Definition unreadable_local (s : Site) : option exn :=
  match s with
  | at_read_local => Some (OSError "Permission denied")
  | _ => None
  end.

Definition no_local_file : World :=
  with_local_store {| main_file := None; wal := None |} Sample.first_sync.

End Faulty.



(** * Properties *)

Arguments _file_digest : simpl never.
Arguments _format_message : simpl never.
Arguments isoformat : simpl never.
Arguments py_str : simpl never.
Arguments String.append : simpl never.
Arguments SHA256.hexdigest : simpl never.
Arguments store_set_metadata : simpl never.
Arguments store_get_metadata : simpl never.

Create HintDb run.
#[global] Hint Unfold mbind M_bind mret M_ret get modify raise log call try_finally
  except_OSError_pass path_exists stat_st_size mkdtemp temp_dir_exists
  unlink_remote_temp rmdir_temp_dir current_timestamp progress backend_download
  backend_upload on_store open_remote_db ensure_initialized checkpoint
  replace_with_remote_temp set_metadata merger_merge _debug_summary
  with_local_store with_backend_snapshot with_workspace with_progress_label
  with_trace file_at read_bytes : run.

(** ** The library models on known values *)

Example sha256_empty :
  SHA256.hexdigest [] = "e3b0c44298fc1c149afbf4c8996fb92427ae41e4649b934ca495991b7852b855".
Proof. vm_compute. reflexivity. Qed.

Example sha256_abc :
  SHA256.hexdigest (list_byte_of_string "abc")
  = "ba7816bf8f01cfea414140de5dae2223b00361a396177a9cb410ff61f20015ad".
Proof. vm_compute. reflexivity. Qed.

Example isoformat_example :
  isoformat {| year := 2024; month := 3; day := 9; hour := 7; minute := 5;
               second := 0; microsecond := 1234 |}
  = "2024-03-09T07:05:00.001234+00:00".
Proof. vm_compute. reflexivity. Qed.

Example format_example :
  _format_message {| MergeStats.local_changes := 0; MergeStats.remote_changes := 0;
                     MergeStats.notes_merged := 3; MergeStats.notes_deleted := 1 |}
                  false false
  = "Merged 3 notes, propagated 1 deletions".
Proof. vm_compute. reflexivity. Qed.


(** ** Python strings: text without upper-case letters *)

Lemma py_lower_no_upper s : no_upper s = true → py_lower s = s.
Proof.
  induction s as [|c s IH]; [done|]. cbn [no_upper py_lower].
  intros [Hc Hs]%andb_true_iff. rewrite IH by done.
  unfold to_lower. by destruct (is_upper c).
Qed.

Lemma no_upper_app s t : no_upper (s +:+ t) = no_upper s && no_upper t.
Proof.
  induction s as [|c s IH]; [done|].
  change (String c s +:+ t) with (String c (s +:+ t)).
  cbn [no_upper]. by rewrite IH, andb_assoc.
Qed.

Lemma no_upper_uint d : no_upper (NilEmpty.string_of_uint d) = true.
Proof. induction d; cbn [NilEmpty.string_of_uint no_upper]; by rewrite ?IHd. Qed.

Lemma no_upper_py_str n : no_upper (py_str n) = true.
Proof.
  unfold py_str, NilZero.string_of_int, NilZero.string_of_uint.
  destruct (Z.to_int n) as [d|d]; destruct d; try done;
    cbn [no_upper]; try apply (no_upper_uint (_ d));
    rewrite ?andb_true_l;
    first [ apply (no_upper_uint (D0 d)) | apply (no_upper_uint (D1 d))
          | apply (no_upper_uint (D2 d)) | apply (no_upper_uint (D3 d))
          | apply (no_upper_uint (D4 d)) | apply (no_upper_uint (D5 d))
          | apply (no_upper_uint (D6 d)) | apply (no_upper_uint (D7 d))
          | apply (no_upper_uint (D8 d)) | apply (no_upper_uint (D9 d)) ].
Qed.

Lemma no_upper_join sep parts :
  no_upper sep = true → Forall (λ p, no_upper p = true) parts →
  no_upper (py_join sep parts) = true.
Proof.
  intros Hsep. induction 1 as [|p parts Hp Hparts IH]; [done|].
  destruct parts as [|q parts]; [done|].
  change (py_join sep (p :: q :: parts)) with (p +:+ sep +:+ py_join sep (q :: parts)).
  by rewrite !no_upper_app, Hp, Hsep, IH.
Qed.

Lemma capitalize_no_upper s :
  no_upper s = true → py_capitalize s = capitalize_start s.
Proof.
  destruct s as [|c s]; [done|]. cbn [no_upper]. intros [_ Hs]%andb_true_iff.
  unfold py_capitalize, capitalize_start. by rewrite py_lower_no_upper.
Qed.

Lemma clauses_no_upper u d m k :
  Forall (λ p, no_upper p = true) (clauses u d m k).
Proof.
  unfold clauses. repeat apply Forall_app_2.
  - destruct u; repeat constructor.
  - destruct d; repeat constructor.
  - destruct (decide (m = 0)); repeat constructor.
    by rewrite !no_upper_app, no_upper_py_str.
  - destruct (decide (k = 0)); repeat constructor.
    by rewrite !no_upper_app, no_upper_py_str.
Qed.

(** The list [_format_message] builds is the list of clauses. *)
Lemma format_message_parts stats u d :
  _format_message stats u d =
  match clauses u d (MergeStats.notes_merged stats) (MergeStats.notes_deleted stats) with
  | [] => "No changes detected"
  | cs => py_capitalize (py_join ", " cs)
  end.
Proof.
  unfold _format_message, clauses.
  destruct (decide (MergeStats.notes_merged stats = 0)) as [->|Hm];
    destruct (decide (MergeStats.notes_deleted stats = 0)) as [->|Hd];
    rewrite ?Z.eqb_refl;
    try (apply Z.eqb_neq in Hm as ->); try (apply Z.eqb_neq in Hd as ->);
    by destruct u, d.
Qed.

(** C8: the message is a function of the two flags and the statistics
    alone; it is the clauses "uploaded changes", "downloaded changes",
    "merged N notes" and "propagated N deletions" that apply, in this order,
    joined with ", " and capitalised at the start, and "No changes detected"
    when none applies.  The two examples of the design document hold. *)
Theorem format_message_as_described :
  (∀ stats uploaded downloaded,
     _format_message stats uploaded downloaded
     = described_message uploaded downloaded stats)
  ∧ (∀ local remote, _format_message (Sample.stats local remote 0 0) false false
                     = "No changes detected")
  ∧ (∀ local remote, _format_message (Sample.stats local remote 0 0) true false
                     = "Uploaded changes")
  ∧ (∀ local remote, _format_message (Sample.stats local remote 3 1) false false
                     = "Merged 3 notes, propagated 1 deletions").
Proof.
  split; [|by repeat split].
  intros stats u d. rewrite format_message_parts. unfold described_message.
  pose proof (clauses_no_upper u d (MergeStats.notes_merged stats)
                (MergeStats.notes_deleted stats)) as Hcs.
  destruct (clauses _ _ _ _) as [|p cs]; [done|].
  apply capitalize_no_upper, no_upper_join; done.
Qed.

(** ** _file_digest *)

Lemma CHUNK_pos : (0 < CHUNK)%nat.
Proof. unfold CHUNK. lia. Qed.

Opaque CHUNK SHA256.hexdigest.

Lemma take_nil_inv {A} (n : nat) (l : list A) :
  (0 < n)%nat → take n l = [] → l = [].
Proof. destruct n, l; simpl; intros; try done; lia. Qed.

Lemma sha256_update_nil sha : sha256_update sha [] = sha.
Proof. unfold sha256_update. rewrite app_nil_r. by destruct sha. Qed.

(** The loop feeds the whole file to the hash object, for every fuel that
    covers the length of the file. *)
Lemma read_chunks_all fuel handle sha :
  (length handle ≤ fuel)%nat →
  read_chunks fuel handle sha = sha256_update sha handle.
Proof.
  revert handle sha. induction fuel as [|fuel IH]; intros handle sha Hlen.
  - destruct handle; [|simpl in Hlen; lia]. by rewrite sha256_update_nil.
  - cbn [read_chunks].
    destruct (take CHUNK handle) as [|b chunk] eqn:Htake.
    + apply take_nil_inv in Htake as ->; [|apply CHUNK_pos].
      by rewrite sha256_update_nil.
    + rewrite IH.
      * unfold sha256_update; cbn [fed].
        by rewrite <- app_assoc, <- Htake, take_drop.
      * rewrite length_drop. pose proof CHUNK_pos.
        assert (length handle ≠ 0)%nat
          by (destruct handle; [by rewrite take_nil in Htake|done]).
        lia.
Qed.

Section Digest.

Variable serialize : Image → list byte.
Variable fault : Site → option exn.

Lemma file_digest_run path w :
  _file_digest serialize fault path w =
  match read_bytes serialize path w with
  | None => (Returned None, with_trace (trace w ++ [EvDigest path]) w)
  | Some bytes =>
      match fault (open_site path) with
      | Some e => (Raised e, with_trace (trace w ++ [EvDigest path]) w)
      | None => (Returned (Some (SHA256.hexdigest bytes)),
                 with_trace (trace w ++ [EvDigest path]) w)
      end
  end.
Proof.
  assert (file_at path (with_trace (trace w ++ [EvDigest path]) w) = file_at path w)
    as Hfile by (by destruct path).
  unfold _file_digest, open_rb, path_exists, read_bytes, mbind, M_bind, log, modify,
    get, raise, mret, M_ret.
  cbn. rewrite Hfile.
  destruct (file_at path w) as [img|] eqn:Hf; cbn; rewrite ?Hfile, ?Hf; cbn; [|done].
  destruct (fault (open_site path)); [done|].
  by rewrite read_chunks_all.
Qed.

(** C10, as the code has it: [_file_digest] returns [None] when there is no
    file at the path; when the file is there and opens for reading, it
    returns the SHA-256 digest, in hexadecimal, of all the bytes of the file;
    when the path exists and does not open, the error of [open] escapes.  In
    none of the cases is the file system changed.  The digests of two files
    with the same content are equal. *)
Theorem file_digest_cases :
  (∀ path w,
     read_bytes serialize path w = None →
     _file_digest serialize fault path w
     = (Returned None, with_trace (trace w ++ [EvDigest path]) w))
  ∧ (∀ path w bytes,
       read_bytes serialize path w = Some bytes →
       fault (open_site path) = None →
       _file_digest serialize fault path w
       = (Returned (Some (SHA256.hexdigest bytes)),
          with_trace (trace w ++ [EvDigest path]) w))
  ∧ (∀ path w bytes e,
       read_bytes serialize path w = Some bytes →
       fault (open_site path) = Some e →
       _file_digest serialize fault path w
       = (Raised e, with_trace (trace w ++ [EvDigest path]) w))
  ∧ (∀ path1 w1 path2 w2 digest1 digest2,
       (_file_digest serialize fault path1 w1).1 = Returned digest1 →
       (_file_digest serialize fault path2 w2).1 = Returned digest2 →
       read_bytes serialize path1 w1 = read_bytes serialize path2 w2 →
       digest1 = digest2).
Proof.
  split_and!.
  - intros path w Hnone. by rewrite file_digest_run, Hnone.
  - intros path w bytes Hsome Hopen. by rewrite file_digest_run, Hsome, Hopen.
  - intros path w bytes e Hsome Hopen. by rewrite file_digest_run, Hsome, Hopen.
  - intros path1 w1 path2 w2 digest1 digest2. rewrite !file_digest_run.
    intros H1 H2 Heq. rewrite Heq in H1.
    destruct (read_bytes serialize path2 w2) as [bytes|]; cbn [fst] in *;
      [|congruence].
    destruct (fault (open_site path1)), (fault (open_site path2));
      cbn [fst] in *; congruence.
Qed.

End Digest.

(** C10 as it is worded fails: a local file that is there and does not open
    for reading makes [_file_digest] raise. *)
Lemma file_digest_raises :
  is_Some (read_bytes Sample.serialize local_path Sample.in_step)
  ∧ (_file_digest Sample.serialize Faulty.unreadable_local local_path Sample.in_step).1
    = Raised (OSError "Permission denied").
Proof. split; [by eexists|]. vm_compute. reflexivity. Qed.

Lemma file_digest_cases_witness :
  read_bytes Sample.serialize local_path Sample.in_step
  = Some (Sample.serialize (Sample.notes "milk"))
  ∧ Sample.no_fault (open_site local_path) = None
  ∧ _file_digest Sample.serialize Sample.no_fault local_path Sample.in_step
    = (Returned (Some (SHA256.hexdigest (Sample.serialize (Sample.notes "milk")))),
       with_trace (trace Sample.in_step ++ [EvDigest local_path]) Sample.in_step).
Proof.
  split; [reflexivity|]. split; [reflexivity|].
  apply (proj1 (proj2 (file_digest_cases Sample.serialize Sample.no_fault)));
    reflexivity.
Defined.


(** ** The monad *)

Lemma bind_inv {A B} (m : M A) (f : A → M B) w r w' :
  (m ≫= f) w = (r, w') →
  (∃ e, m w = (Raised e, w') ∧ r = Raised e)
  ∨ (∃ a w1, m w = (Returned a, w1) ∧ f a w1 = (r, w')).
Proof.
  unfold mbind, M_bind. destruct (m w) as [[a|e] w1].
  - right. eauto.
  - intros [= <- <-]. left. eauto.
Qed.

Lemma bind_returned_inv {A B} (m : M A) (f : A → M B) w b w' :
  (m ≫= f) w = (Returned b, w') →
  ∃ a w1, m w = (Returned a, w1) ∧ f a w1 = (Returned b, w').
Proof.
  intros [(e & _ & [=])|H]%bind_inv. exact H.
Qed.


Lemma outcome_eq {A} (r1 r2 : outcome A) (w1 w2 : World) :
  (r1, w1) = (r2, w2) → r1 = r2 ∧ w1 = w2.
Proof. by intros [= -> ->]. Qed.

Lemma returned_eq {A} (a b : A) (w1 w2 : World) :
  (Returned a, w1) = (Returned b, w2) → a = b ∧ w1 = w2.
Proof. by intros [= -> ->]. Qed.

Lemma raised_eq {A} (e1 e2 : exn) (w1 w2 : World) :
  (@Raised A e1, w1) = (Raised e2, w2) → e1 = e2 ∧ w1 = w2.
Proof. by intros [= -> ->]. Qed.

(** ** Running [sync] step by step *)

Ltac app_head t :=
  lazymatch t with
  | ?f _ => app_head f
  | _ => t
  end.

(** The term whose value a stuck computation waits for. *)
Ltac blocker t :=
  lazymatch t with
  | bool_decide (is_Some ?o) => blocker o
  | option_bind _ _ _ ?o => blocker o
  | _ =>
      let h := app_head t in
      lazymatch h with
      | match ?x with _ => _ end => blocker x
      | _ => t
      end
  end.

Ltac case_head H :=
  lazymatch type of H with
  | ?l = _ =>
      let b := blocker l in
      lazymatch b with
      | l => fail
      | _ =>
          first [ match goal with Hb : b = _ |- _ => rewrite Hb in H end
                | destruct b eqn:? ]
      end
  end; cbn in H.

(** Settles the run [H] of one statement by cases. *)
Ltac prim H :=
  rewrite ?file_digest_run in H;
  autounfold with run in H; cbn in H;
  repeat case_head H;
  lazymatch type of H with
  | (Raised _, _) = (Returned _, _) => discriminate H
  | (Returned _, _) = (Raised _, _) => discriminate H
  | (Returned _, _) = (Returned _, _) =>
      let Ha := fresh in
      apply returned_eq in H as [Ha <-]; first [destruct Ha | clear Ha]
  | (Raised _, _) = (Raised _, _) =>
      let Ha := fresh in
      apply raised_eq in H as [Ha <-]; first [destruct Ha | clear Ha]
  | (_, _) = (_, _) =>
      let Ha := fresh in
      apply outcome_eq in H as [Ha <-]; destruct Ha
  end.

(** One statement of a run that returns. *)
Ltac step H :=
  let Hm := fresh "Hm" in
  apply bind_returned_inv in H as (? & ? & Hm & H);
  cbv beta zeta in H; prim Hm.

(** One statement of a run, whatever its outcome; the first goal is the one
    where the statement raises. *)
Ltac step_any H :=
  let Hm := fresh "Hm" in
  apply bind_inv in H as [(? & Hm & ->)|(? & ? & Hm & H)];
  [prim Hm | cbv beta zeta in H; prim Hm].

(** Tests on a direction that is known. *)
Ltac known_direction :=
  repeat match goal with
  | |- context [bool_decide (@eq SyncDirection ?a ?b)] =>
      let v := eval vm_compute in (bool_decide (a = b)) in
      change (bool_decide (a = b)) with v
  | H : context [bool_decide (@eq SyncDirection ?a ?b)] |- _ =>
      let v := eval vm_compute in (bool_decide (a = b)) in
      change (bool_decide (a = b)) with v in H
  | |- context [direction_in ?d ?ds] =>
      let v := eval vm_compute in (direction_in d ds) in
      change (direction_in d ds) with v
  | H : context [direction_in ?d ?ds] |- _ =>
      let v := eval vm_compute in (direction_in d ds) in
      change (direction_in d ds) with v in H
  end.

(** Unfolding of the definitions of the program, by name. *)
Ltac open_sync H := unfold sync in H.
Ltac open_uploads := unfold uploads.
Ltac open_replaces := unfold replaces.
Ltac open_merged :=
  unfold uploads, replaces, remote_digest, local_digest_before, merged_stats,
    merged_local, merged_remote.

Section Sync.

Variable merge : Image → Image → MergeStats.t * Image * Image.
Variable serialize : Image → list byte.
Variable path_str : Path → string.
Variable fault : Site → option exn.

Abbreviation sync := (sync merge serialize path_str fault).
Abbreviation merged_stats := (merged_stats merge).
Abbreviation merged_local := (merged_local merge).
Abbreviation merged_remote := (merged_remote merge).
Abbreviation local_digest_before := (local_digest_before serialize).
Abbreviation remote_digest := (remote_digest serialize).
Abbreviation uploads := (uploads merge).
Abbreviation replaces := (replaces merge serialize).

(** The block under [finally] returns, in every world. *)
Lemma finally_run previous_label w :
  (progress stop ;;
   progress (set_label previous_label) ;;
   file_exists ← path_exists remote_temp;
   (if file_exists : bool then unlink_remote_temp else mret tt) ;;
   dir_exists ← temp_dir_exists;
   (if dir_exists : bool then except_OSError_pass rmdir_temp_dir else mret tt)) w
  = (Returned tt, released previous_label w).
Proof.
  unfold released. autounfold with run. cbn.
  destruct (workspace w) as [[[img|] [log|]]|]; cbn;
    by rewrite <- ?app_assoc.
Qed.

Lemma try_finally_released {A} (body : M A) previous_label w r w' :
  try_finally body
    (progress stop ;;
     progress (set_label previous_label) ;;
     file_exists ← path_exists remote_temp;
     (if file_exists : bool then unlink_remote_temp else mret tt) ;;
     dir_exists ← temp_dir_exists;
     (if dir_exists : bool then except_OSError_pass rmdir_temp_dir else mret tt)) w
  = (r, w') →
  ∃ w1, body w = (r, w1) ∧ w' = released previous_label w1.
Proof.
  unfold try_finally. destruct (body w) as [r1 w1].
  rewrite finally_run. intros [= <- <-]. eauto.
Qed.

(** Rewrites the goal in the terms of the case at hand. *)
Ltac in_case :=
  cbv zeta;
  unfold released; open_merged; unfold calls, fetched, read_bytes, file_at;
  cbn [local_store backend_snapshot workspace progress_label trace];
  repeat match goal with
         | H : backend_snapshot _ = _ |- _ => rewrite !H
         end;
  cbn [from_option fmap option_fmap option_map mbind option_bind compose id];
  repeat match goal with
         | H : merge _ _ = _ |- _ => rewrite !H
         | H : _ <$> main_file (local_store _) = _ |- _ => rewrite !H
         end;
  known_direction;
  rewrite <- ?app_assoc, ?drop_app_length;
  cbn in *;
  repeat match goal with H : ?x = ?x |- _ => clear H end;
  repeat match goal with
         | H : ?b = true |- context [?b] => rewrite H
         | H : ?b = false |- context [?b] => rewrite H
         end;
  cbn; rewrite ?orb_true_r, ?orb_false_r, ?andb_true_r, ?andb_false_r; cbn.

(** Every call that returns, in full: the result, the stores, the backend,
    the workspace and the calls to the collaborators. *)
Lemma sync_returned d c w res w' :
  sync d c w = (Returned res, w') →
  let stats := merged_stats w in
  let up := uploads d w in
  let fb := replaces d w in
  let down := (MergeStats.local_changes stats >? 0) || fb in
  let way := if up then "upload" else if down then "download" else "noop" in
  is_Some (main_file (local_store w))
  ∧ (d = PULL → is_Some (backend_snapshot w))
  ∧ res = {| SyncResult.uploaded := up;
             SyncResult.downloaded := down;
             SyncResult.message := _format_message stats up down;
             SyncResult.merged_notes := MergeStats.notes_merged stats;
             SyncResult.deleted_notes := MergeStats.notes_deleted stats;
             SyncResult.local_changes := MergeStats.local_changes stats;
             SyncResult.remote_changes := MergeStats.remote_changes stats |}
  ∧ local_store w'
    = store_set_metadata "last_sync_direction" way
        (store_set_metadata "last_sync_at" (isoformat (utc_now w))
           {| main_file := Some (if fb then merged_remote w else merged_local w);
              wal := None |})
  ∧ backend_snapshot w' = (if up then Some (merged_remote w) else backend_snapshot w)
  ∧ workspace w' = None
  ∧ progress_label w' = progress_label w
  ∧ collaborator_calls (calls w w')
    = [EvMkdtemp; EvDigest local_path; EvDownload; EvOpen; EvEnsureInitialized; EvMerge]
      ++ (if bool_decide (is_Some (backend_snapshot w)) then [EvDigest remote_temp] else [])
      ++ [EvCheckpoint self_db; EvCheckpoint remote_db]
      ++ (if up then [EvUpload] else [])
      ++ (if fb then [EvReplaceWith; EvCheckpoint self_db] else [])
      ++ [EvSetMetadata "last_sync_at" (isoformat (utc_now w));
          EvSetMetadata "last_sync_direction" way; EvUnlink; EvRmdir].
Proof.
  intros H. open_sync H.
  destruct d; known_direction.
  all: do 4 step H.
  all: apply try_finally_released in H as (w1 & H & ->).
  all: do 25 step H; prim H.
  all: in_case.
  all: split_and!; try first [reflexivity | by eauto].
  all: match goal with
       | H : _ <$> main_file (local_store ?w) = Some _ |- _ =>
           by destruct (main_file (local_store w))
       end.
Qed.

(** Membership in the calls of a run whose trace is a chain of appends. *)
Lemma calls_there e n (t l : list Event) :
  e ∈ drop n t → e ∈ drop n (t ++ l).
Proof. rewrite drop_app. set_solver. Qed.

Lemma calls_here e (t0 t l : list Event) :
  t0 `prefix_of` t → e ∈ l → e ∈ drop (length t0) (t ++ l).
Proof.
  intros [k ->] He. rewrite <- app_assoc, drop_app_length. set_solver.
Qed.

Ltac found :=
  unfold calls, released; cbn [trace];
  repeat first
    [ solve [ apply calls_here;
              [ repeat first [reflexivity | apply prefix_app_r]
              | apply list_elem_of_In; cbn [In];
                repeat first [left; reflexivity | right] ] ]
    | apply calls_there ].

(** Every call, whatever its outcome: where an exception that escapes comes
    from, and that the merger is called once the statements before it have
    gone through. *)
Lemma sync_outcomes d c w r w' :
  sync d c w = (r, w') →
  (∀ e, r = Raised e →
     e = BackendError "Remote database not found for pull sync"
     ∨ e = FileNotFoundError ∨ ∃ s, fault s = Some e)
  ∧ (fault at_read_local = None →
     fault at_download = None → fault at_open = None →
     fault at_ensure_initialized = None →
     is_Some (main_file (local_store w)) →
     (d = PULL → is_Some (backend_snapshot w)) →
     EvMerge ∈ calls w w').
Proof.
  intros H. open_sync H.
  destruct d; known_direction.
  all: do 4 step_any H.
  all: try apply try_finally_released in H as (w1 & H & ->).
  all: repeat step_any H.
  all: try prim H.
  all: (split;
        [ intros e0 Hr; try discriminate Hr; injection Hr as <-; eauto 10
        | intros ]).
  all: try discriminate.
  all: try congruence.
  all: try match goal with
       | H : PULL = PULL → is_Some None |- _ => by destruct (H eq_refl) as [? [=]]
       | H1 : _ <$> main_file (local_store ?w) = None,
         H2 : is_Some (main_file (local_store ?w)) |- _ =>
           destruct H2 as [? H2]; rewrite H2 in H1; discriminate H1
       end.
  all: found.
Qed.

(** ** Stores and directions *)

Lemma main_file_set_metadata k v s :
  main_file (store_set_metadata k v s) = main_file s.
Proof. reflexivity. Qed.

Lemma get_set_metadata k v s :
  store_get_metadata k (store_set_metadata k v s) = Some v.
Proof.
  unfold store_get_metadata, store_set_metadata, content, current, write.
  cbn. apply lookup_insert_eq.
Qed.

Lemma get_set_metadata_ne k k' v s :
  k ≠ k' →
  store_get_metadata k' (store_set_metadata k v s) = store_get_metadata k' s.
Proof.
  intros Hne.
  unfold store_get_metadata, store_set_metadata, content at 1, current at 1, write.
  cbn. by apply lookup_insert_ne.
Qed.

Lemma direction_in_spec d ds : direction_in d ds = true ↔ d ∈ ds.
Proof. apply bool_decide_eq_true. Qed.

Lemma elem_of_collaborator_calls e t :
  (∀ c, e ≠ EvProgress c) → e ∈ collaborator_calls t ↔ e ∈ t.
Proof.
  intros He. induction t as [|e' t IH]; [done|].
  destruct e'; cbn [collaborator_calls]; rewrite ?elem_of_cons, IH; naive_solver.
Qed.

Lemma uploads_iff d w :
  uploads d w = true
  ↔ (d = PUSH ∨ d = BOTH)
    ∧ (0 < MergeStats.remote_changes (merged_stats w)
       ∨ backend_snapshot w = None ∨ d = PUSH).
Proof.
  open_uploads.
  rewrite andb_true_iff, !orb_true_iff, negb_true_iff, direction_in_spec,
    bool_decide_eq_false, bool_decide_eq_true, Z.gtb_lt, eq_None_not_Some,
    !elem_of_cons, elem_of_nil.
  tauto.
Qed.

Lemma replaces_iff d w :
  replaces d w = true
  ↔ ¬ 0 < MergeStats.local_changes (merged_stats w)
    ∧ (d = PULL ∨ d = BOTH)
    ∧ is_Some (backend_snapshot w)
    ∧ remote_digest w ≠ None
    ∧ remote_digest w ≠ local_digest_before w.
Proof.
  open_replaces.
  rewrite !andb_true_iff, negb_true_iff, direction_in_spec, !bool_decide_eq_true,
    <- not_true_iff_false, Z.gtb_lt, !elem_of_cons, elem_of_nil.
  tauto.
Qed.

(** Membership in a list given in full, both ways. *)
Ltac listed :=
  rewrite ?elem_of_app, ?elem_of_cons, ?elem_of_nil; naive_solver.

Lemma upload_called d c w res w' :
  sync d c w = (Returned res, w') →
  EvUpload ∈ calls w w' ↔ uploads d w = true.
Proof.
  intros (_ & _ & _ & _ & _ & _ & _ & Hcalls)%sync_returned.
  rewrite <- elem_of_collaborator_calls, Hcalls by done.
  destruct (bool_decide (is_Some (backend_snapshot w))), (uploads d w), (replaces d w);
    cbn [app]; listed.
Qed.

Lemma replace_called d c w res w' :
  sync d c w = (Returned res, w') →
  EvReplaceWith ∈ calls w w' ↔ replaces d w = true.
Proof.
  intros (_ & _ & _ & _ & _ & _ & _ & Hcalls)%sync_returned.
  rewrite <- elem_of_collaborator_calls, Hcalls by done.
  destruct (bool_decide (is_Some (backend_snapshot w))), (uploads d w), (replaces d w);
    cbn [app]; listed.
Qed.

(** ** The claims about [sync] *)

(** C2: in a call that returns, the fallback replace runs if and only if
    [downloaded] is false after the upload decision (the merger has reported
    no local change), the direction is PULL or BOTH, the remote exists, and
    [remote_digest] is not [None] and differs from [local_digest_before].
    When it runs, the main file of the local store is the content of the
    workspace file (the remote database as merged and flushed), the checkpoint
    of the local store follows the replace, and [downloaded] is true in the
    result.  When it does not run, the local store keeps what the merger left
    in it, and [downloaded] is as the upload decision left it. *)
Theorem fallback_replace_iff d c w res w' :
  sync d c w = (Returned res, w') →
  (EvReplaceWith ∈ calls w w'
   ↔ ¬ 0 < MergeStats.local_changes (merged_stats w)
     ∧ (d = PULL ∨ d = BOTH)
     ∧ is_Some (backend_snapshot w)
     ∧ remote_digest w ≠ None
     ∧ remote_digest w ≠ local_digest_before w)
  ∧ (EvReplaceWith ∈ calls w w' →
     main_file (local_store w') = Some (merged_remote w)
     ∧ (∃ before after,
          collaborator_calls (calls w w')
          = before ++ [EvReplaceWith; EvCheckpoint self_db] ++ after)
     ∧ SyncResult.downloaded res = true)
  ∧ ((EvReplaceWith ∉ calls w w') →
     main_file (local_store w') = Some (merged_local w)
     ∧ SyncResult.downloaded res
       = (MergeStats.local_changes (merged_stats w) >? 0)).
Proof.
  intros H. pose proof (replace_called _ _ _ _ _ H) as Hcalled.
  destruct (sync_returned _ _ _ _ _ H)
    as (_ & _ & -> & Hstore & _ & _ & _ & Hcalls).
  cbn [SyncResult.local_changes SyncResult.downloaded]. split_and!.
  - by rewrite Hcalled, replaces_iff.
  - intros Hfb%Hcalled. rewrite Hstore, Hcalls, Hfb, !main_file_set_metadata.
    split_and!; [done| |by rewrite orb_true_r].
    cbv iota.
    match goal with
    | |- ∃ _ _, ?a ++ ?b ++ ?c ++ ?d ++ ?m ++ ?e = _ =>
        exists (a ++ b ++ c ++ d), e; by rewrite <- !app_assoc
    end.
  - rewrite Hcalled. intros Hfb%not_true_is_false.
    by rewrite Hstore, Hfb, !main_file_set_metadata, orb_false_r.
Qed.

(** C3: in a call that returns, the backend upload is invoked, and
    [uploaded] is true in the result, if and only if the direction is PUSH or
    BOTH and the merger has reported remote changes, or the remote does not
    exist, or the direction is PUSH.  The upload stores the remote database as
    merged and flushed; without it the snapshot of the backend is as before.
    Without a remote, a PUSH or BOTH call uploads whatever the merger has
    reported; a PULL call never uploads. *)
Theorem upload_iff d c w res w' :
  sync d c w = (Returned res, w') →
  let should := (d = PUSH ∨ d = BOTH)
                ∧ (0 < MergeStats.remote_changes (merged_stats w)
                   ∨ backend_snapshot w = None ∨ d = PUSH) in
  (SyncResult.uploaded res = true ↔ should)
  ∧ (EvUpload ∈ calls w w' ↔ should)
  ∧ (should → backend_snapshot w' = Some (merged_remote w))
  ∧ (¬ should → backend_snapshot w' = backend_snapshot w)
  ∧ (backend_snapshot w = None → d = PUSH ∨ d = BOTH →
     SyncResult.uploaded res = true)
  ∧ (d = PULL → SyncResult.uploaded res = false).
Proof.
  intros H. pose proof (upload_called _ _ _ _ _ H) as Hcalled.
  destruct (sync_returned _ _ _ _ _ H) as (_ & _ & -> & _ & Hbackend & _).
  cbn [SyncResult.remote_changes SyncResult.uploaded].
  rewrite Hcalled, Hbackend. cbv zeta. rewrite <- uploads_iff.
  split_and!; [done..| | | |].
  - by intros ->.
  - by intros ->%not_true_is_false.
  - intros Hnone Hd. apply uploads_iff. tauto.
  - intros ->. apply not_true_iff_false. rewrite uploads_iff. naive_solver.
Qed.

(** C4: a PULL call for which the backend reports no remote snapshot (the
    call has got to the download: the local file, if there is one, has opened
    for the digest) fails with the error of the pull precondition; the local
    store, its metadata included, and the backend are as before, and neither
    the workspace file nor its directory is left. *)
Theorem pull_without_remote_fails c w :
  fault at_read_local = None ∨ main_file (local_store w) = None →
  backend_snapshot w = None → fault at_download = None →
  ∃ w', sync PULL c w
        = (Raised (BackendError "Remote database not found for pull sync"), w')
        ∧ local_store w' = local_store w
        ∧ backend_snapshot w' = backend_snapshot w
        ∧ workspace w' = None.
Proof.
  intros Hread Hnone Hfault. destruct (sync PULL c w) as [r w'] eqn:H.
  open_sync H. known_direction.
  do 4 step_any H.
  all: try (exfalso; destruct Hread as [Hread|Hread]; [congruence|];
            match goal with
            | H2 : _ <$> main_file (local_store _) = _ |- _ =>
                rewrite Hread in H2; discriminate H2
            end).
  all: apply try_finally_released in H as (w1 & H & ->).
  all: repeat step_any H; try congruence.
  all: eexists; split; [reflexivity|]; done.
Qed.

(** C5 does not hold of the code: the workspace is made, and the label of
    the progress display is set, before the [try] statement, and so is the
    digest of the local file.  When the local file is there and does not open
    for reading, the error of [open] escapes before the [try] is entered:
    nothing under [finally] runs, the directory made by [mkdtemp] is left
    behind, and the display keeps the label of the call. *)
Theorem workspace_leaked_before_try d c w e :
  is_Some (main_file (local_store w)) →
  fault at_read_local = Some e →
  ∃ w', sync d c w = (Raised e, w')
        ∧ workspace w' = Some {| main_file := None; wal := None |}
        ∧ progress_label w' = c
        ∧ calls w w' = [EvMkdtemp; EvProgress (set_label c); EvDigest local_path].
Proof.
  intros [img Himg] Hread. destruct (sync d c w) as [r w'] eqn:H. open_sync H.
  do 4 step_any H; try congruence.
  - try match goal with
        | |- ∃ _, (Raised ?x, _) = _ ∧ _ => assert (x = e) as -> by congruence
        end.
    eexists. split; [reflexivity|]. split_and!; [reflexivity..|].
    unfold calls; cbn [trace]. by rewrite <- !app_assoc, drop_app_length.
  - match goal with
    | H : _ <$> main_file (local_store _) = None |- _ =>
        rewrite Himg in H; discriminate H
    end.
Qed.

(** C6: in a call that returns, [downloaded] is true in the result whenever
    the merger has reported local changes, whether the fallback replace has
    run or not; it is true exactly when the merger did or the fallback
    replace ran.  The result carries the count of the merger. *)
Theorem downloaded_when_local_changes d c w res w' :
  sync d c w = (Returned res, w') →
  SyncResult.local_changes res = MergeStats.local_changes (merged_stats w)
  ∧ (0 < MergeStats.local_changes (merged_stats w) →
     SyncResult.downloaded res = true)
  ∧ (SyncResult.downloaded res = true
     ↔ 0 < MergeStats.local_changes (merged_stats w)
       ∨ EvReplaceWith ∈ calls w w').
Proof.
  intros H. pose proof (replace_called _ _ _ _ _ H) as Hcalled.
  destruct (sync_returned _ _ _ _ _ H) as (_ & _ & -> & _).
  cbn [SyncResult.local_changes SyncResult.downloaded].
  rewrite Hcalled, orb_true_iff, Z.gtb_lt. tauto.
Qed.

(** C7: a call that returns has written the metadata of the local store:
    [last_sync_at] is the UTC time of the call in ISO format and
    [last_sync_direction] is "upload" if it uploaded, else "download" if it
    downloaded, else "noop". *)
Theorem sync_metadata_written d c w res w' :
  sync d c w = (Returned res, w') →
  store_get_metadata "last_sync_at" (local_store w') = Some (isoformat (utc_now w))
  ∧ store_get_metadata "last_sync_direction" (local_store w')
    = Some (if SyncResult.uploaded res then "upload"
            else if SyncResult.downloaded res then "download"
            else "noop").
Proof.
  intros H.
  destruct (sync_returned _ _ _ _ _ H) as (_ & _ & -> & -> & _).
  cbn [SyncResult.uploaded SyncResult.downloaded].
  by rewrite get_set_metadata, get_set_metadata_ne, get_set_metadata.
Qed.

(** The part of C9 that holds for every collaborator: the merger is called
    in every call that gets to it, whatever the direction, and a PUSH call
    that returns leaves in the local store what the merger wrote there. *)
Lemma merge_reached d c w :
  fault at_read_local = None →
  fault at_download = None → fault at_open = None →
  fault at_ensure_initialized = None →
  is_Some (main_file (local_store w)) →
  (d = PULL → is_Some (backend_snapshot w)) →
  EvMerge ∈ calls w (sync d c w).2.
Proof.
  destruct (sync d c w) as [r w'] eqn:H.
  by destruct (sync_outcomes _ _ _ _ _ H).
Qed.

Lemma push_keeps_merged_local c w res w' :
  sync PUSH c w = (Returned res, w') →
  main_file (local_store w') = Some (merged_local w).
Proof.
  intros H.
  destruct (sync_returned _ _ _ _ _ H) as (_ & _ & _ & -> & _).
  assert (replaces PUSH w = false) as ->.
  { open_replaces. known_direction. by destruct (negb _). }
  by rewrite !main_file_set_metadata.
Qed.

End Sync.


(** ** The claims on the sample calls *)

(** Applies a statement about the calls that return to a sample call. *)
Ltac on_run thm :=
  cbv zeta; split; [vm_compute; reflexivity | apply thm; vm_compute; reflexivity].

Lemma fallback_replace_iff_witness :
  let w := Sample.remote_ahead in
  let run := Sample.run Sample.merge_none Sample.no_fault BOTH w in
  let res := Sample.returned run in
  run = (Returned res, run.2)
  ∧ (EvReplaceWith ∈ calls w run.2
     ↔ ¬ 0 < MergeStats.local_changes (merged_stats Sample.merge_none w)
       ∧ (BOTH = PULL ∨ BOTH = BOTH)
       ∧ is_Some (backend_snapshot w)
       ∧ remote_digest Sample.serialize w ≠ None
       ∧ remote_digest Sample.serialize w ≠ local_digest_before Sample.serialize w)
  ∧ (EvReplaceWith ∈ calls w run.2 →
     main_file (local_store run.2) = Some (merged_remote Sample.merge_none w)
     ∧ (∃ before after,
          collaborator_calls (calls w run.2)
          = before ++ [EvReplaceWith; EvCheckpoint self_db] ++ after)
     ∧ SyncResult.downloaded res = true)
  ∧ ((EvReplaceWith ∉ calls w run.2) →
     main_file (local_store run.2) = Some (merged_local Sample.merge_none w)
     ∧ SyncResult.downloaded res
       = (MergeStats.local_changes (merged_stats Sample.merge_none w) >? 0)).
Proof.
  on_run (fallback_replace_iff Sample.merge_none Sample.serialize Sample.path_str
            Sample.no_fault BOTH "Sync").
Defined.

Lemma upload_iff_witness :
  let w := Sample.first_sync in
  let run := Sample.run Sample.merge_none Sample.no_fault BOTH w in
  let res := Sample.returned run in
  run = (Returned res, run.2)
  ∧ (let should := (BOTH = PUSH ∨ BOTH = BOTH)
                   ∧ (0 < MergeStats.remote_changes (merged_stats Sample.merge_none w)
                      ∨ backend_snapshot w = None ∨ BOTH = PUSH) in
     (SyncResult.uploaded res = true ↔ should)
     ∧ (EvUpload ∈ calls w run.2 ↔ should)
     ∧ (should → backend_snapshot run.2 = Some (merged_remote Sample.merge_none w))
     ∧ (¬ should → backend_snapshot run.2 = backend_snapshot w)
     ∧ (backend_snapshot w = None → BOTH = PUSH ∨ BOTH = BOTH →
        SyncResult.uploaded res = true)
     ∧ (BOTH = PULL → SyncResult.uploaded res = false)).
Proof.
  on_run (upload_iff Sample.merge_none Sample.serialize Sample.path_str
            Sample.no_fault BOTH "Sync").
Defined.

Lemma pull_without_remote_fails_witness :
  (Sample.no_fault at_read_local = None
   ∨ main_file (local_store Sample.first_sync) = None)
  ∧ backend_snapshot Sample.first_sync = None
  ∧ Sample.no_fault at_download = None
  ∧ ∃ w', Sample.run Sample.merge_none Sample.no_fault PULL Sample.first_sync
          = (Raised (BackendError "Remote database not found for pull sync"), w')
          ∧ local_store w' = local_store Sample.first_sync
          ∧ backend_snapshot w' = backend_snapshot Sample.first_sync
          ∧ workspace w' = None.
Proof.
  split; [by left|]. split; [reflexivity|]. split; [reflexivity|].
  apply (pull_without_remote_fails Sample.merge_none Sample.serialize Sample.path_str
           Sample.no_fault "Sync" Sample.first_sync); [by left|reflexivity..].
Defined.

Lemma workspace_leaked_before_try_witness :
  is_Some (main_file (local_store Sample.in_step))
  ∧ Faulty.unreadable_local at_read_local = Some (OSError "Permission denied")
  ∧ ∃ w', Sample.run Sample.merge_none Faulty.unreadable_local BOTH Sample.in_step
          = (Raised (OSError "Permission denied"), w')
          ∧ workspace w' = Some {| main_file := None; wal := None |}
          ∧ progress_label w' = "Sync"
          ∧ calls Sample.in_step w'
            = [EvMkdtemp; EvProgress (set_label "Sync"); EvDigest local_path].
Proof.
  split; [by eexists|]. split; [reflexivity|].
  apply (workspace_leaked_before_try Sample.merge_none Sample.serialize
           Sample.path_str Faulty.unreadable_local BOTH "Sync" Sample.in_step);
    [by eexists|reflexivity].
Defined.

Lemma downloaded_when_local_changes_witness :
  let w := Sample.remote_ahead in
  let run := Sample.run Sample.merge_pull Sample.no_fault BOTH w in
  let res := Sample.returned run in
  run = (Returned res, run.2)
  ∧ SyncResult.local_changes res
    = MergeStats.local_changes (merged_stats Sample.merge_pull w)
  ∧ (0 < MergeStats.local_changes (merged_stats Sample.merge_pull w) →
     SyncResult.downloaded res = true)
  ∧ (SyncResult.downloaded res = true
     ↔ 0 < MergeStats.local_changes (merged_stats Sample.merge_pull w)
       ∨ EvReplaceWith ∈ calls w run.2).
Proof.
  on_run (downloaded_when_local_changes Sample.merge_pull Sample.serialize
            Sample.path_str Sample.no_fault BOTH "Sync").
Defined.

Lemma sync_metadata_written_witness :
  let w := Sample.in_step in
  let run := Sample.run Sample.merge_none Sample.no_fault BOTH w in
  let res := Sample.returned run in
  run = (Returned res, run.2)
  ∧ store_get_metadata "last_sync_at" (local_store run.2)
    = Some (isoformat (utc_now w))
  ∧ store_get_metadata "last_sync_direction" (local_store run.2)
    = Some (if SyncResult.uploaded res then "upload"
            else if SyncResult.downloaded res then "download"
            else "noop").
Proof.
  on_run (sync_metadata_written Sample.merge_none Sample.serialize Sample.path_str
            Sample.no_fault BOTH "Sync").
Defined.

(** C9: the merger is called in every call that gets to the merge step,
    whatever the direction; a PUSH call that returns leaves in the local
    store what the merger wrote there; so the content of the local store can
    change in a push-only call, as it does in the sample call where the
    remote is ahead. *)
Theorem merge_for_every_direction :
  (∀ merge serialize path_str fault d c w,
     fault at_read_local = None →
     fault at_download = None → fault at_open = None →
     fault at_ensure_initialized = None →
     is_Some (main_file (local_store w)) →
     (d = PULL → is_Some (backend_snapshot w)) →
     EvMerge ∈ calls w (sync merge serialize path_str fault d c w).2)
  ∧ (∀ merge serialize path_str fault c w res w',
       sync merge serialize path_str fault PUSH c w = (Returned res, w') →
       main_file (local_store w') = Some (merged_local merge w))
  ∧ (let run := Sample.run Sample.merge_pull Sample.no_fault PUSH Sample.remote_ahead in
     main_file (local_store Sample.remote_ahead) = Some (Sample.notes "milk")
     ∧ main_file (local_store run.2) = Some (Sample.notes "milk,eggs,tea")).
Proof.
  split_and!.
  - apply merge_reached.
  - apply push_keeps_merged_local.
  - vm_compute. done.
Qed.

Lemma merge_for_every_direction_witness :
  Sample.no_fault at_read_local = None
  ∧ Sample.no_fault at_download = None ∧ Sample.no_fault at_open = None
  ∧ Sample.no_fault at_ensure_initialized = None
  ∧ is_Some (main_file (local_store Sample.remote_ahead))
  ∧ (PUSH = PULL → is_Some (backend_snapshot Sample.remote_ahead))
  ∧ EvMerge ∈ calls Sample.remote_ahead
              (Sample.run Sample.merge_pull Sample.no_fault PUSH Sample.remote_ahead).2.
Proof.
  split_and!; [reflexivity..|by eexists|by eexists|].
  apply (proj1 merge_for_every_direction Sample.merge_pull Sample.serialize
           Sample.path_str Sample.no_fault PUSH "Sync" Sample.remote_ahead);
    [reflexivity..|by eexists|by eexists].
Defined.

(** C1 does not hold of the code: [remote_digest] is computed before the
    two checkpoints.  In every call that returns and has fetched a remote
    snapshot, the digest of the workspace file comes right after the merge
    and the two checkpoints come after it.  In the sample call where the
    local store is ahead, the merger copies the local database to the remote
    store and reports no local change; the digest is taken from the file as
    fetched, it differs from [local_digest_before], and the fallback replace
    runs, although the file that the checkpoint flushes and the backend
    receives has the digest of the local file. *)
Theorem digest_before_checkpoints :
  (∀ merge serialize path_str fault d c w res w',
     sync merge serialize path_str fault d c w = (Returned res, w') →
     is_Some (backend_snapshot w) →
     ∃ after,
       collaborator_calls (calls w w')
       = [EvMkdtemp; EvDigest local_path; EvDownload; EvOpen; EvEnsureInitialized;
          EvMerge; EvDigest remote_temp; EvCheckpoint self_db; EvCheckpoint remote_db]
         ++ after
       ∧ EvDigest remote_temp ∉ after)
  ∧ (let w := Sample.local_ahead in
     let run := Sample.run Sample.merge_push Sample.no_fault BOTH w in
     collaborator_calls (calls w run.2)
     = [EvMkdtemp; EvDigest local_path; EvDownload; EvOpen; EvEnsureInitialized;
        EvMerge; EvDigest remote_temp; EvCheckpoint self_db; EvCheckpoint remote_db;
        EvUpload; EvReplaceWith; EvCheckpoint self_db;
        EvSetMetadata "last_sync_at" "2024-03-09T07:05:00.001234+00:00";
        EvSetMetadata "last_sync_direction" "upload"; EvUnlink; EvRmdir]
     ∧ run.1 = Returned
         {| SyncResult.uploaded := true;
            SyncResult.downloaded := true;
            SyncResult.message := "Uploaded changes, downloaded changes, merged 1 notes";
            SyncResult.merged_notes := 1;
            SyncResult.deleted_notes := 0;
            SyncResult.local_changes := 0;
            SyncResult.remote_changes := 1 |}
     ∧ remote_digest Sample.serialize w
       = Some "8825e76530f87ff5c737b3254c6936bc0a90bba3a10a91bbba739268208d378a"
     ∧ local_digest_before Sample.serialize w
       = Some "05473e400f001b192092981611601d3c3e604d1b8d8c4f3932c9c4b0abeca167"
     ∧ (SHA256.hexdigest ∘ Sample.serialize) <$> backend_snapshot run.2
       = local_digest_before Sample.serialize w).
Proof.
  split.
  - intros merge serialize path_str fault d c w res w' H Hremote.
    destruct (sync_returned _ _ _ _ _ _ _ _ _ H) as (_&_&_&_&_&_&_& ->).
    rewrite (bool_decide_eq_true_2 _ Hremote). eexists. split; [reflexivity|].
    destruct (uploads _ _ _), (replaces _ _ _ _); cbn [app];
      rewrite ?elem_of_cons, elem_of_nil; naive_solver.
  - vm_compute. done.
Qed.

Lemma digest_before_checkpoints_witness :
  let w := Sample.local_ahead in
  let run := Sample.run Sample.merge_push Sample.no_fault BOTH w in
  run = (Returned (Sample.returned run), run.2)
  ∧ is_Some (backend_snapshot w)
  ∧ ∃ after,
      collaborator_calls (calls w run.2)
      = [EvMkdtemp; EvDigest local_path; EvDownload; EvOpen; EvEnsureInitialized;
         EvMerge; EvDigest remote_temp; EvCheckpoint self_db; EvCheckpoint remote_db]
        ++ after
      ∧ EvDigest remote_temp ∉ after.
Proof.
  cbv zeta. split; [vm_compute; reflexivity|]. split; [by eexists|].
  let run := constr:(Sample.run Sample.merge_push Sample.no_fault BOTH
                       Sample.local_ahead) in
  apply (proj1 digest_before_checkpoints Sample.merge_push Sample.serialize
           Sample.path_str Sample.no_fault BOTH "Sync" Sample.local_ahead
           (Sample.returned run) run.2);
    [vm_compute; reflexivity|by eexists].
Defined.


(** * Further properties *)

(** ** More on [_format_message] *)

Lemma to_lower_not_upper c : is_upper (to_lower c) = false.
Proof. by destruct c as [[] [] [] [] [] [] [] []]. Qed.

Lemma no_upper_py_lower s : no_upper (py_lower s) = true.
Proof.
  induction s as [|c s IH]; [done|].
  cbn [py_lower no_upper]. by rewrite to_lower_not_upper, IH.
Qed.

Lemma py_join_head sep c p rest :
  ∃ tail, py_join sep (String c p :: rest) = String c tail.
Proof. destruct rest; cbn [py_join]; eauto. Qed.

(** The first character of the message tells which clause comes first. *)
Lemma format_message_head stats u d :
  ∃ rest,
    _format_message stats u d
    = String (if u then "U"%char else if d then "D"%char
              else if MergeStats.notes_merged stats =? 0
                   then (if MergeStats.notes_deleted stats =? 0 then "N"%char else "P"%char)
                   else "M"%char) rest
    ∧ no_upper rest = true.
Proof.
  rewrite format_message_parts. unfold clauses.
  destruct (decide (MergeStats.notes_merged stats = 0)) as [Hm|Hm];
    [rewrite (proj2 (Z.eqb_eq _ _) Hm)|rewrite (proj2 (Z.eqb_neq _ _) Hm)];
    (destruct (decide (MergeStats.notes_deleted stats = 0)) as [Hd|Hd];
     [rewrite ?(proj2 (Z.eqb_eq _ _) Hd)|rewrite ?(proj2 (Z.eqb_neq _ _) Hd)]);
    destruct u, d;
    cbn [app];
    (try by (eexists; split; [reflexivity|]));
    match goal with
    | |- context [py_join ?sep (?p :: ?rest)] =>
        let p' := eval cbv [String.append] in p in
        change p with p';
        edestruct (py_join_head sep) as [tail ->]
    end;
    (eexists; split; [reflexivity|apply no_upper_py_lower]).
Qed.

Lemma no_changes_message stats u d :
  _format_message stats u d = "No changes detected"
  ↔ u = false ∧ d = false
    ∧ MergeStats.notes_merged stats = 0 ∧ MergeStats.notes_deleted stats = 0.
Proof.
  split.
  - destruct (format_message_head stats u d) as (rest & Heq & _).
    intros H. rewrite H in Heq. injection Heq as Hc _.
    destruct u; [discriminate Hc|]. destruct d; [discriminate Hc|].
    destruct (Z.eqb_spec (MergeStats.notes_merged stats) 0); [|discriminate Hc].
    destruct (Z.eqb_spec (MergeStats.notes_deleted stats) 0); [|discriminate Hc].
    done.
  - intros (-> & -> & Hm & Hd). unfold _format_message. by rewrite Hm, Hd.
Qed.

(** X1: the message is "No changes detected" exactly when nothing was
    uploaded, nothing downloaded and no note merged or deleted.  In every
    case the message starts with the capital initial of its first clause and
    has no other upper-case letter. *)
Theorem format_message_first_clause stats u d :
  (_format_message stats u d = "No changes detected"
   ↔ u = false ∧ d = false
     ∧ MergeStats.notes_merged stats = 0 ∧ MergeStats.notes_deleted stats = 0)
  ∧ ∃ c rest,
      _format_message stats u d = String c rest
      ∧ c = (if u then "U"%char else if d then "D"%char
             else if MergeStats.notes_merged stats =? 0
                  then (if MergeStats.notes_deleted stats =? 0 then "N"%char
                        else "P"%char)
                  else "M"%char)
      ∧ is_upper c = true ∧ no_upper rest = true.
Proof.
  split; [apply no_changes_message|].
  destruct (format_message_head stats u d) as (rest & -> & Hrest).
  eexists _, _. split_and!; [reflexivity..| |done].
  by destruct u, d, (MergeStats.notes_merged stats =? 0),
    (MergeStats.notes_deleted stats =? 0).
Qed.

(** ** The form of a digest *)

Lemma round_length st kw : length (SHA256.round st kw) = length st.
Proof.
  by destruct st as [|a [|b [|c [|d [|e [|f [|g [|h [|]]]]]]]]].
Qed.

Lemma rounds_length kws st : length (foldl SHA256.round st kws) = length st.
Proof.
  revert st. induction kws as [|kw kws IH]; intros st; [done|].
  cbn [foldl]. by rewrite IH, round_length.
Qed.

Lemma compress_length h block : length (SHA256.compress h block) = length h.
Proof.
  unfold SHA256.compress. rewrite length_zip_with, rounds_length. lia.
Qed.

Lemma digest_words_length msg : length (SHA256.digest_words msg) = 8%nat.
Proof.
  unfold SHA256.digest_words.
  generalize (SHA256.blocks (length (SHA256.be_words (SHA256.pad msg)))
                (SHA256.be_words (SHA256.pad msg))).
  assert (length SHA256.initial_hash = 8%nat) as Hlen by reflexivity.
  revert Hlen. generalize SHA256.initial_hash.
  intros h Hh bs. revert h Hh. induction bs as [|b bs IH]; intros h Hh; [done|].
  cbn [foldl]. apply IH. by rewrite compress_length.
Qed.

Lemma hex_char_is_hex v : 0 ≤ v < 16 → is_hex_digit (SHA256.hex_char v) = true.
Proof.
  intros Hv. replace v with (Z.of_nat (Z.to_nat v)) by lia.
  assert (Z.to_nat v < 16)%nat as Hn by lia. revert Hn.
  generalize (Z.to_nat v). intros n Hn.
  do 16 (destruct n as [|n]; [reflexivity|]). lia.
Qed.

Lemma hex_of_form n x tail :
  String.length (SHA256.hex_of n x tail) = (n + String.length tail)%nat
  ∧ (all_hex tail = true → all_hex (SHA256.hex_of n x tail) = true).
Proof.
  revert x tail. induction n as [|n IH]; intros x tail; [done|].
  cbn [SHA256.hex_of].
  destruct (IH (Z.shiftr x 4) (String (SHA256.hex_char (Z.land x 15)) tail))
    as [-> Hhex].
  split; [cbn [String.length]; lia|].
  intros Htail. apply Hhex. cbn [all_hex]. rewrite Htail, hex_char_is_hex; [done|].
  change 15 with (Z.ones 4). rewrite Z.land_ones by lia.
  apply Z.mod_pos_bound. lia.
Qed.

Lemma hex_words_form ws :
  String.length (foldr (SHA256.hex_of 8) EmptyString ws) = (8 * length ws)%nat
  ∧ all_hex (foldr (SHA256.hex_of 8) EmptyString ws) = true.
Proof.
  induction ws as [|x ws [IHlen IHhex]]; [done|].
  cbn [foldr]. destruct (hex_of_form 8 x (foldr (SHA256.hex_of 8) EmptyString ws))
    as [-> Hhex].
  split; [cbn [length]; lia|by apply Hhex].
Qed.

Lemma hexdigest_form msg :
  String.length (SHA256.hexdigest msg) = 64%nat
  ∧ all_hex (SHA256.hexdigest msg) = true.
Proof.
  pose proof (hex_words_form (SHA256.digest_words msg)) as [Hlen Hhex].
  rewrite digest_words_length in Hlen. by split.
Qed.

(** X3: a digest returned by [_file_digest] is a text of 64 lower-case
    hexadecimal digits. *)
Theorem file_digest_form serialize fault path w digest :
  (_file_digest serialize fault path w).1 = Returned (Some digest) →
  String.length digest = 64%nat ∧ all_hex digest = true.
Proof.
  rewrite file_digest_run.
  destruct (read_bytes serialize path w) as [bytes|]; [|discriminate].
  destruct (fault (open_site path)); [discriminate|].
  intros [= <-]. apply hexdigest_form.
Qed.

Lemma file_digest_form_witness :
  (_file_digest Sample.serialize Sample.no_fault local_path Sample.in_step).1
  = Returned (Some "8825e76530f87ff5c737b3254c6936bc0a90bba3a10a91bbba739268208d378a")
  ∧ String.length "8825e76530f87ff5c737b3254c6936bc0a90bba3a10a91bbba739268208d378a" = 64%nat
  ∧ all_hex "8825e76530f87ff5c737b3254c6936bc0a90bba3a10a91bbba739268208d378a" = true.
Proof.
  assert (H : (_file_digest Sample.serialize Sample.no_fault local_path
                 Sample.in_step).1
              = Returned (Some "8825e76530f87ff5c737b3254c6936bc0a90bba3a10a91bbba739268208d378a"))
    by (vm_compute; reflexivity).
  split; [exact H|].
  exact (file_digest_form Sample.serialize Sample.no_fault local_path
           Sample.in_step _ H).
Defined.


(** ** Runs, statement by statement *)

Section Keeps.

Context {R : World → World → Prop} `{!PreOrder R}.

Lemma keeps_ret {A} (a : A) : keeps R (mret a).
Proof. intros w r w' [= <- <-]. reflexivity. Qed.

Lemma keeps_raise {A} e : keeps R (@raise A e).
Proof. intros w r w' [= <- <-]. reflexivity. Qed.

Lemma keeps_get : keeps R get.
Proof. intros w r w' [= <- <-]. reflexivity. Qed.

Lemma keeps_bind {A B} (m : M A) (f : A → M B) :
  keeps R m → (∀ a, keeps R (f a)) → keeps R (m ≫= f).
Proof.
  intros Hm Hf w r w' H. unfold mbind, M_bind in H.
  destruct (m w) as [[a|e] w1] eqn:Hrun.
  - etrans; [by eapply Hm|by eapply Hf].
  - injection H as <- <-. by eapply Hm.
Qed.

Lemma keeps_try_finally {A} (body : M A) (final : M unit) :
  keeps R body → keeps R final → keeps R (try_finally body final).
Proof.
  intros Hb Hf w r w' H. unfold try_finally in H.
  destruct (body w) as [r1 w1] eqn:Hbody.
  destruct (final w1) as [[[]|e] w2] eqn:Hfinal; injection H as <- <-;
    (etrans; [by eapply Hb|by eapply Hf]).
Qed.

Lemma keeps_except (m : M unit) : keeps R m → keeps R (except_OSError_pass m).
Proof.
  intros Hm w r w' H. unfold except_OSError_pass in H.
  destruct (m w) as [[[]|e] w1] eqn:Hrun; [injection H as <- <-; by eapply Hm|].
  destruct (is_OSError e); injection H as <- <-; by eapply Hm.
Qed.

End Keeps.

Section RunOf.

Variable P : Event → Prop.

#[global] Instance run_of_preorder : PreOrder (run_of P).
Proof.
  split.
  - intros w. exists []. by rewrite app_nil_r.
  - intros w1 w2 w3 (l1 & H1 & HP1 & Hb1) (l2 & H2 & HP2 & Hb2).
    exists (l1 ++ l2). rewrite H2, H1, app_assoc. split_and!; [done|by apply Forall_app|].
    rewrite elem_of_app. intros Hno. rewrite Hb2, Hb1; tauto.
Qed.

Lemma keeps_log e : P e → keeps (run_of P) (log e).
Proof.
  intros He w r w' [= <- <-]. exists [e]. split_and!; [done|by constructor|done].
Qed.

Lemma keeps_with_workspace d : keeps (run_of P) (modify (with_workspace d)).
Proof. intros w r w' [= <- <-]. exists []. by rewrite app_nil_r. Qed.

Lemma keeps_with_local_store s : keeps (run_of P) (modify (with_local_store s)).
Proof. intros w r w' [= <- <-]. exists []. by rewrite app_nil_r. Qed.

Lemma keeps_with_progress_label l : keeps (run_of P) (modify (with_progress_label l)).
Proof. intros w r w' [= <- <-]. exists []. by rewrite app_nil_r. Qed.

(** The one statement that writes the snapshot of the backend. *)
Lemma keeps_upload fault : P EvUpload → keeps (run_of P) (backend_upload fault).
Proof.
  intros HP w r w' H. exists [EvUpload].
  unfold backend_upload, call, log, modify, get, raise, mbind, M_bind, mret, M_ret in H.
  cbn in H.
  assert (trace w' = trace w ++ [EvUpload]) as ->
    by (destruct (fault at_upload); cbn in H;
        [|destruct (workspace w ≫= main_file)]; by injection H as <- <-).
  split_and!; [done|by constructor|]. rewrite list_elem_of_singleton. done.
Qed.

End RunOf.

(** Goes through a computation statement by statement. *)
Ltac keeps_go :=
  repeat
    (cbv beta zeta;
     lazymatch goal with
     | |- keeps _ (_ ≫= _) => apply keeps_bind; [|intros ?]
     | |- keeps _ (mret _) => apply keeps_ret
     | |- keeps _ (raise _) => apply keeps_raise
     | |- keeps _ get => apply keeps_get
     | |- keeps _ (log _) => apply keeps_log; first [reflexivity | exact I]
     | |- keeps _ (modify (with_workspace _)) => apply keeps_with_workspace
     | |- keeps _ (modify (with_local_store _)) => apply keeps_with_local_store
     | |- keeps _ (modify (with_progress_label _)) => apply keeps_with_progress_label
     | |- keeps _ (backend_upload _) => apply keeps_upload; first [reflexivity | exact I]
     | |- keeps _ (try_finally _ _) => apply keeps_try_finally
     | |- keeps _ (except_OSError_pass _) => apply keeps_except
     | |- keeps _ (if ?b then _ else _) =>
         first [ progress (rewrite ?andb_false_r; cbn [andb orb negb])
               | destruct b ]
     | |- keeps _ (match ?x with _ => _ end) => destruct x
     | |- keeps _ ?m => let h := app_head m in unfold h
     end).

Section Gates.

Variable merge : Image → Image → MergeStats.t * Image * Image.
Variable serialize : Image → list byte.
Variable path_str : Path → string.
Variable fault : Site → option exn.

(** Every call, whatever its outcome, makes only the calls its direction
    permits, and writes the snapshot of the backend only by an upload. *)
Lemma sync_permitted d c :
  keeps (run_of (λ e, permits d e = true)) (sync merge serialize path_str fault d c).
Proof.
  unfold sync. destruct d; known_direction; keeps_go.
Qed.

End Gates.

Lemma run_of_calls P w w' :
  run_of P w w' →
  trace w' = trace w ++ calls w w'
  ∧ Forall P (calls w w')
  ∧ (EvUpload ∉ calls w w' → backend_snapshot w' = backend_snapshot w).
Proof.
  intros (l & Ht & HP & Hb). unfold calls. by rewrite Ht, drop_app_length.
Qed.

Section Always.

Variable merge : Image → Image → MergeStats.t * Image * Image.
Variable serialize : Image → list byte.
Variable path_str : Path → string.
Variable fault : Site → option exn.

Abbreviation sync := (sync merge serialize path_str fault).

(** X5: whatever the outcome, a PULL call never calls [upload] and leaves
    the snapshot of the backend as it was; a PUSH call never calls
    [replace_with]. *)
Theorem direction_gates c w :
  ((EvUpload ∉ calls w (sync PULL c w).2)
   ∧ backend_snapshot (sync PULL c w).2 = backend_snapshot w)
  ∧ (EvReplaceWith ∉ calls w (sync PUSH c w).2).
Proof.
  split.
  - destruct (sync PULL c w) as [r w'] eqn:H. cbn [snd].
    apply sync_permitted, run_of_calls in H as (_ & HP & Hb).
    assert (EvUpload ∉ calls w w') as Hno; [|auto].
    intros Hin. by apply (proj1 (Forall_forall _ _) HP) in Hin.
  - destruct (sync PUSH c w) as [r w'] eqn:H. cbn [snd].
    apply sync_permitted, run_of_calls in H as (_ & HP & _).
    intros Hin. by apply (proj1 (Forall_forall _ _) HP) in Hin.
Qed.

(** Settles a case that the facts about the local file exclude. *)
Ltac excluded :=
  repeat match goal with
         | H : is_Some _ |- _ => destruct H as [? H]
         | H : _ ∨ _ |- _ => destruct H as [H|H]
         end;
  first
    [ congruence
    | match goal with
      | H1 : main_file (local_store ?w) = _,
        H2 : _ <$> main_file (local_store ?w) = _ |- _ =>
          rewrite H1 in H2; discriminate H2
      end ].

(** X4: once the digest of the local file is taken (there is no local file,
    or it opens for reading), the progress display has, whatever the outcome
    of the call, the label it had before the call: the call first makes the
    workspace and sets the label to the context; [stop] and the [set_label]
    that restores the label are its last calls to the display, and only the
    removal of the workspace comes after them.  When the local file does not
    open, the error escapes before the [try] statement, and the display keeps
    the label of the call. *)
Theorem progress_released d c w :
  let w' := (sync d c w).2 in
  (fault at_read_local = None ∨ main_file (local_store w) = None →
   progress_label w' = progress_label w
   ∧ ∃ before after,
       calls w w'
       = [EvMkdtemp; EvProgress (set_label c)] ++ before
         ++ [EvProgress stop; EvProgress (set_label (progress_label w))] ++ after
       ∧ Forall (λ e, e = EvUnlink ∨ e = EvRmdir) after)
  ∧ (is_Some (main_file (local_store w)) → is_Some (fault at_read_local) →
     progress_label w' = c
     ∧ calls w w' = [EvMkdtemp; EvProgress (set_label c); EvDigest local_path]).
Proof.
  cbv zeta. destruct (sync d c w) as [r w'] eqn:H. cbn [snd]. open_sync H.
  do 4 step_any H.
  all: split; [intros Hok|intros Hfile Hfault].
  all: try (exfalso; excluded; fail).
  - split; [reflexivity|]. unfold calls; cbn [trace].
    by rewrite <- !app_assoc, drop_app_length.
  - apply try_finally_released in H as (w1 & H & ->).
    match type of H with
    | ?body ?w0 = _ =>
        assert (keeps (run_of (λ _, True)) body) as Hbody by keeps_go;
        destruct (Hbody _ _ _ H) as (later & Hl & _); clear Hbody H
    end.
    unfold released, calls. cbn [progress_label trace] in *. split; [done|].
    rewrite Hl, <- !app_assoc, drop_app_length.
    exists (EvDigest local_path :: later). eexists. split; [reflexivity|].
    destruct (bool_decide (is_Some (workspace w1 ≫= main_file))),
      (bool_decide (is_Some (workspace w1)));
      repeat (apply Forall_cons_2; [cbv beta; by auto|]); apply Forall_nil_2.
  - apply try_finally_released in H as (w1 & H & ->).
    match type of H with
    | ?body ?w0 = _ =>
        assert (keeps (run_of (λ _, True)) body) as Hbody by keeps_go;
        destruct (Hbody _ _ _ H) as (later & Hl & _); clear Hbody H
    end.
    unfold released, calls. cbn [progress_label trace] in *. split; [done|].
    rewrite Hl, <- !app_assoc, drop_app_length.
    exists (EvDigest local_path :: later). eexists. split; [reflexivity|].
    destruct (bool_decide (is_Some (workspace w1 ≫= main_file))),
      (bool_decide (is_Some (workspace w1)));
      repeat (apply Forall_cons_2; [cbv beta; by auto|]); apply Forall_nil_2.
Qed.

(** Finds a call in the calls of a run whose trace is a chain of appends. *)
Ltac called :=
  unfold calls, released; cbn [trace];
  repeat first
    [ solve [ apply calls_here;
              [ repeat first [reflexivity | apply prefix_app_r]
              | apply list_elem_of_In; cbn [In];
                repeat first [left; reflexivity | right] ] ]
    | apply calls_there ].

Lemma not_called (e : Event) l :
  forallb (λ x, negb (bool_decide (x = e))) l = true → e ∉ l.
Proof.
  intros Hall Hin. apply list_elem_of_In in Hin.
  apply (proj1 (forallb_forall _ _) Hall) in Hin.
  by rewrite bool_decide_eq_true_2 in Hin.
Qed.

(** Either the merger is called, and then nothing has failed before it; or
    the call has raised before the merge step and has changed nothing: the
    local file has not opened for the digest, and then the workspace is left
    as it was made, or one of five things has happened inside the [try]
    statement, and then the workspace is removed. *)
Lemma sync_before_merge d c w r w' :
  sync d c w = (r, w') →
  (EvMerge ∈ calls w w'
   ∧ fault at_read_local = None
   ∧ fault at_download = None ∧ fault at_open = None
   ∧ fault at_ensure_initialized = None
   ∧ is_Some (main_file (local_store w))
   ∧ (d = PULL → is_Some (backend_snapshot w)))
  ∨ ((EvMerge ∉ calls w w')
     ∧ local_store w' = local_store w
     ∧ backend_snapshot w' = backend_snapshot w
     ∧ ∃ e, r = Raised e
            ∧ ((fault at_read_local = Some e
                ∧ is_Some (main_file (local_store w))
                ∧ workspace w' = Some {| main_file := None; wal := None |})
               ∨ ((fault at_read_local = None ∨ main_file (local_store w) = None)
                  ∧ workspace w' = None
                  ∧ (fault at_download = Some e
                     ∨ (d = PULL ∧ backend_snapshot w = None
                        ∧ e = BackendError "Remote database not found for pull sync")
                     ∨ fault at_open = Some e
                     ∨ fault at_ensure_initialized = Some e
                     ∨ (main_file (local_store w) = None
                        ∧ e = FileNotFoundError))))).
Proof.
  intros H. open_sync H.
  destruct d; known_direction.
  all: do 4 step_any H.
  all: try apply try_finally_released in H as (w1 & H & ->).
  all: do 12 (try step_any H).
  all: lazymatch goal with
       | H : (merger_merge _ _ ≫= _) _ = _ |- _ =>
           left; split;
           [ apply bind_inv in H as [(e & Hm & ->)|(stats & wm & Hm & H)];
             [ prim Hm; called
             | prim Hm;
               match type of H with
               | ?body ?w0 = _ =>
                   assert (keeps (run_of (λ _, True)) body) as Hbody by keeps_go;
                   destruct (Hbody _ _ _ H) as (? & Hl & _)
               end;
               unfold calls, released; cbn [trace] in *; rewrite Hl; called ]
           | split_and!; try done;
             match goal with
             | H : _ <$> main_file (local_store ?w) = Some _ |- _ =>
                 by destruct (main_file (local_store w))
             end ]
       | _ => right
       end.
  all: try (split; [apply not_called; unfold calls, released; cbn [trace];
                    rewrite <- !app_assoc, drop_app_length; reflexivity|]).
  all: try (split_and!; [reflexivity..|]).
  all: try (eexists; split; [reflexivity|]).
  all: try match goal with
           | H : _ <$> main_file (local_store ?w) = None |- _ =>
               destruct (main_file (local_store w)) eqn:?; [discriminate H|]
           end.
  all: try match goal with
           | H : _ <$> main_file (local_store ?w) = Some _ |- _ =>
               assert (is_Some (main_file (local_store w)))
                 by (by destruct (main_file (local_store w)))
           end.
  all: first [ left; split_and!; [done..|reflexivity]
             | right; split_and!; [by auto|reflexivity|]; eauto 10 ].
Qed.

(** X6: the merger is called only if the local file has opened for the
    digest, the download, the opening of the remote store and its
    initialisation have not failed, the file of the local store exists, and a
    PULL call has found a remote snapshot. *)
Theorem merge_called_only_if d c w :
  EvMerge ∈ calls w (sync d c w).2 →
  fault at_read_local = None
  ∧ fault at_download = None ∧ fault at_open = None
  ∧ fault at_ensure_initialized = None
  ∧ is_Some (main_file (local_store w))
  ∧ (d = PULL → is_Some (backend_snapshot w)).
Proof.
  destruct (sync d c w) as [r w'] eqn:H. cbn [snd].
  by destruct (sync_before_merge _ _ _ _ _ H) as [[Hin Hok]|[Hno _]].
Qed.

(** X7: a call in which the merger is not called has raised, and has changed
    neither the local store nor the snapshot of the backend.  Its workspace is
    removed when the digest of the local file was taken (there is no local
    file, or it opens for reading); when the local file does not open, the
    workspace is left behind as [mkdtemp] made it. *)
Theorem failure_before_merge d c w :
  (EvMerge ∉ calls w (sync d c w).2) →
  (∃ e, (sync d c w).1 = Raised e)
  ∧ local_store (sync d c w).2 = local_store w
  ∧ backend_snapshot (sync d c w).2 = backend_snapshot w
  ∧ (fault at_read_local = None ∨ main_file (local_store w) = None →
     workspace (sync d c w).2 = None)
  ∧ (is_Some (main_file (local_store w)) → is_Some (fault at_read_local) →
     workspace (sync d c w).2 = Some {| main_file := None; wal := None |}).
Proof.
  destruct (sync d c w) as [r w'] eqn:H. cbn [fst snd]. intros Hno.
  destruct (sync_before_merge _ _ _ _ _ H)
    as [[Hin _]|(_ & ? & ? & e & -> & Hcase)]; [done|].
  split_and!; [by eauto|done..| |].
  - intros Hok. destruct Hcase as [(? & ? & ?)|(_ & ? & _)]; [|done].
    exfalso. excluded.
  - intros Hfile Hfault. destruct Hcase as [(_ & _ & ?)|(Hok & _)]; [done|].
    exfalso. excluded.
Qed.

(** X9: when the file of the local store does not exist, the call raises
    for every direction, before the merge ([local_path.stat()] is evaluated
    for the progress message although [_file_digest] tolerates the missing
    file); nothing is changed and the workspace is removed. *)
Theorem missing_local_file_raises d c w :
  main_file (local_store w) = None →
  (∃ e, (sync d c w).1 = Raised e)
  ∧ (EvMerge ∉ calls w (sync d c w).2)
  ∧ local_store (sync d c w).2 = local_store w
  ∧ backend_snapshot (sync d c w).2 = backend_snapshot w
  ∧ workspace (sync d c w).2 = None.
Proof.
  destruct (sync d c w) as [r w'] eqn:H. cbn [fst snd]. intros Hnone.
  destruct (sync_before_merge _ _ _ _ _ H)
    as [(_ & _ & _ & _ & _ & [? Hsome] & _)|(? & ? & ? & e & -> & Hcase)];
    [congruence|].
  destruct Hcase as [(_ & [? Hsome] & _)|(_ & ? & _)]; [congruence|eauto 10].
Qed.


(** X11: in a call that returns with [uploaded] true, the upload comes
    right after the two checkpoints and happens once; the snapshot of the
    backend is then the remote database as the merger left it, flushed. *)
Theorem upload_after_checkpoints d c w res w' :
  sync d c w = (Returned res, w') →
  SyncResult.uploaded res = true →
  backend_snapshot w' = Some (merged_remote merge w)
  ∧ ∃ before after,
      collaborator_calls (calls w w')
      = before ++ [EvCheckpoint self_db; EvCheckpoint remote_db; EvUpload] ++ after
      ∧ (EvUpload ∉ before) ∧ (EvUpload ∉ after).
Proof.
  intros H. destruct (sync_returned _ _ _ _ _ _ _ _ _ H)
    as (_ & _ & -> & _ & Hbackend & _ & _ & Hcalls).
  cbn [SyncResult.uploaded]. intros Hup.
  rewrite Hbackend, Hcalls, Hup. split; [done|]. cbv iota.
  match goal with
  | |- ∃ _ _, ?a ++ ?b ++ _ ++ _ ++ ?f ++ ?e = _ ∧ _ => exists (a ++ b), (f ++ e)
  end.
  split; [by rewrite <- !app_assoc|].
  split; apply not_called;
    by destruct (bool_decide (is_Some (backend_snapshot w))),
         (replaces merge serialize d w).
Qed.

(** X12: a PULL or BOTH call that returns, with a remote snapshot, a merge
    that reports no local and no remote change, and equal digests, is a no-op:
    nothing is uploaded or replaced, the backend is as before, the local file
    holds what the merger left, and [last_sync_direction] is "noop". *)
Theorem in_step_sync_is_noop d c w res w' :
  sync d c w = (Returned res, w') →
  d ≠ PUSH →
  is_Some (backend_snapshot w) →
  MergeStats.local_changes (merged_stats merge w) ≤ 0 →
  MergeStats.remote_changes (merged_stats merge w) ≤ 0 →
  remote_digest serialize w = local_digest_before serialize w →
  SyncResult.uploaded res = false
  ∧ SyncResult.downloaded res = false
  ∧ backend_snapshot w' = backend_snapshot w
  ∧ main_file (local_store w') = Some (merged_local merge w)
  ∧ store_get_metadata "last_sync_direction" (local_store w') = Some "noop"
  ∧ collaborator_calls (calls w w')
    = [EvMkdtemp; EvDigest local_path; EvDownload; EvOpen; EvEnsureInitialized;
       EvMerge; EvDigest remote_temp; EvCheckpoint self_db; EvCheckpoint remote_db;
       EvSetMetadata "last_sync_at" (isoformat (utc_now w));
       EvSetMetadata "last_sync_direction" "noop"; EvUnlink; EvRmdir].
Proof.
  intros H Hd Hremote Hlocal Hchanges Hdigest.
  destruct (sync_returned _ _ _ _ _ _ _ _ _ H)
    as (_ & _ & -> & -> & -> & _ & _ & ->).
  assert (uploads merge d w = false) as ->.
  { apply not_true_iff_false. rewrite uploads_iff.
    intros (_ & [?|[Hnone|?]]); [lia| |done].
    rewrite Hnone in Hremote. by destruct Hremote. }
  assert (replaces merge serialize d w = false) as ->.
  { apply not_true_iff_false. rewrite replaces_iff. tauto. }
  assert ((MergeStats.local_changes (merged_stats merge w) >? 0) = false) as ->
    by (rewrite Z.gtb_ltb; apply Z.ltb_ge; lia).
  rewrite (bool_decide_eq_true_2 _ Hremote).
  cbn [SyncResult.uploaded SyncResult.downloaded orb app].
  by rewrite get_set_metadata, !main_file_set_metadata.
Qed.

(** X2: in a call that returns, the message of the result is the formatter
    applied to the flags and the counters of the result itself, the flags as
    they are after the fallback replace; it is "No changes detected" exactly
    when the result reports no upload, no download, and no merged or deleted
    note. *)
Theorem result_message_consistent d c w res w' :
  sync d c w = (Returned res, w') →
  SyncResult.message res
  = _format_message
      {| MergeStats.local_changes := SyncResult.local_changes res;
         MergeStats.remote_changes := SyncResult.remote_changes res;
         MergeStats.notes_merged := SyncResult.merged_notes res;
         MergeStats.notes_deleted := SyncResult.deleted_notes res |}
      (SyncResult.uploaded res) (SyncResult.downloaded res)
  ∧ (SyncResult.message res = "No changes detected"
     ↔ SyncResult.uploaded res = false ∧ SyncResult.downloaded res = false
       ∧ SyncResult.merged_notes res = 0 ∧ SyncResult.deleted_notes res = 0).
Proof.
  intros H. destruct (sync_returned _ _ _ _ _ _ _ _ _ H) as (_ & _ & -> & _).
  cbn [SyncResult.message SyncResult.uploaded SyncResult.downloaded
       SyncResult.merged_notes SyncResult.deleted_notes SyncResult.local_changes
       SyncResult.remote_changes].
  split; [by destruct (merged_stats merge w)|].
  apply no_changes_message.
Qed.

End Always.

Lemma progress_released_witness :
  let w := Sample.in_step in
  let w' := (sync Sample.merge_none Sample.serialize Sample.path_str
               Sample.no_fault BOTH "Sync" w).2 in
  (Sample.no_fault at_read_local = None ∨ main_file (local_store w) = None)
  ∧ progress_label w' = progress_label w
  ∧ ∃ before after,
      calls w w'
      = [EvMkdtemp; EvProgress (set_label "Sync")] ++ before
        ++ [EvProgress stop; EvProgress (set_label (progress_label w))] ++ after
      ∧ Forall (λ e, e = EvUnlink ∨ e = EvRmdir) after.
Proof.
  cbv zeta. split; [by left|].
  apply (proj1 (progress_released Sample.merge_none Sample.serialize
                  Sample.path_str Sample.no_fault BOTH "Sync" Sample.in_step)).
  by left.
Defined.

Lemma merge_called_only_if_witness :
  let run := Sample.run Sample.merge_pull Sample.no_fault PUSH Sample.remote_ahead in
  EvMerge ∈ calls Sample.remote_ahead run.2
  ∧ Sample.no_fault at_read_local = None
  ∧ Sample.no_fault at_download = None ∧ Sample.no_fault at_open = None
  ∧ Sample.no_fault at_ensure_initialized = None
  ∧ is_Some (main_file (local_store Sample.remote_ahead))
  ∧ (PUSH = PULL → is_Some (backend_snapshot Sample.remote_ahead)).
Proof.
  cbv zeta. unfold Sample.run.
  assert (Hin : EvMerge ∈ calls Sample.remote_ahead
                  (sync Sample.merge_pull Sample.serialize Sample.path_str
                     Sample.no_fault PUSH "Sync" Sample.remote_ahead).2)
    by (apply list_elem_of_In; vm_compute; repeat first [left; reflexivity | right]).
  split; [exact Hin|].
  exact (merge_called_only_if Sample.merge_pull Sample.serialize Sample.path_str
           Sample.no_fault PUSH "Sync" Sample.remote_ahead Hin).
Defined.

Lemma failure_before_merge_witness :
  let run := Sample.run Sample.merge_none Sample.no_fault PULL Sample.first_sync in
  (EvMerge ∉ calls Sample.first_sync run.2)
  ∧ (∃ e, run.1 = Raised e)
  ∧ local_store run.2 = local_store Sample.first_sync
  ∧ backend_snapshot run.2 = backend_snapshot Sample.first_sync
  ∧ (Sample.no_fault at_read_local = None
     ∨ main_file (local_store Sample.first_sync) = None →
     workspace run.2 = None)
  ∧ (is_Some (main_file (local_store Sample.first_sync)) →
     is_Some (Sample.no_fault at_read_local) →
     workspace run.2 = Some {| main_file := None; wal := None |}).
Proof.
  cbv zeta.
  assert (Hno : EvMerge ∉ calls Sample.first_sync
                  (Sample.run Sample.merge_none Sample.no_fault PULL
                     Sample.first_sync).2)
    by (apply not_called; vm_compute; reflexivity).
  split; [exact Hno|].
  exact (failure_before_merge Sample.merge_none Sample.serialize Sample.path_str
           Sample.no_fault PULL "Sync" Sample.first_sync Hno).
Defined.

Lemma missing_local_file_raises_witness :
  let run := Sample.run Sample.merge_none Sample.no_fault BOTH Faulty.no_local_file in
  main_file (local_store Faulty.no_local_file) = None
  ∧ (∃ e, run.1 = Raised e)
  ∧ (EvMerge ∉ calls Faulty.no_local_file run.2)
  ∧ local_store run.2 = local_store Faulty.no_local_file
  ∧ backend_snapshot run.2 = backend_snapshot Faulty.no_local_file
  ∧ workspace run.2 = None.
Proof.
  cbv zeta. split; [reflexivity|].
  apply (missing_local_file_raises Sample.merge_none Sample.serialize Sample.path_str
           Sample.no_fault BOTH "Sync" Faulty.no_local_file).
  reflexivity.
Defined.





Section Upload.

Variable merge : Image → Image → MergeStats.t * Image * Image.
Variable serialize : Image → list byte.
Variable path_str : Path → string.
Variable fault : Site → option exn.

Abbreviation sync := (sync merge serialize path_str fault).





End Upload.



Lemma upload_after_checkpoints_witness :
  let w := Sample.local_ahead in
  let run := Sample.run Sample.merge_push Sample.no_fault BOTH w in
  let res := Sample.returned run in
  run = (Returned res, run.2)
  ∧ SyncResult.uploaded res = true
  ∧ backend_snapshot run.2 = Some (merged_remote Sample.merge_push w)
  ∧ ∃ before after,
      collaborator_calls (calls w run.2)
      = before ++ [EvCheckpoint self_db; EvCheckpoint remote_db; EvUpload] ++ after
      ∧ (EvUpload ∉ before) ∧ (EvUpload ∉ after).
Proof.
  cbv zeta. split; [vm_compute; reflexivity|]. split; [vm_compute; reflexivity|].
  let run := constr:(Sample.run Sample.merge_push Sample.no_fault BOTH
                       Sample.local_ahead) in
  apply (upload_after_checkpoints Sample.merge_push Sample.serialize Sample.path_str
           Sample.no_fault BOTH "Sync" Sample.local_ahead
           (Sample.returned run) run.2); vm_compute; reflexivity.
Defined.

Lemma in_step_sync_is_noop_witness :
  let w := Sample.in_step in
  let run := Sample.run Sample.merge_none Sample.no_fault BOTH w in
  let res := Sample.returned run in
  run = (Returned res, run.2)
  ∧ BOTH ≠ PUSH
  ∧ is_Some (backend_snapshot w)
  ∧ MergeStats.local_changes (merged_stats Sample.merge_none w) ≤ 0
  ∧ MergeStats.remote_changes (merged_stats Sample.merge_none w) ≤ 0
  ∧ remote_digest Sample.serialize w = local_digest_before Sample.serialize w
  ∧ SyncResult.uploaded res = false
  ∧ SyncResult.downloaded res = false
  ∧ backend_snapshot run.2 = backend_snapshot w
  ∧ main_file (local_store run.2) = Some (merged_local Sample.merge_none w)
  ∧ store_get_metadata "last_sync_direction" (local_store run.2) = Some "noop"
  ∧ collaborator_calls (calls w run.2)
    = [EvMkdtemp; EvDigest local_path; EvDownload; EvOpen; EvEnsureInitialized;
       EvMerge; EvDigest remote_temp; EvCheckpoint self_db; EvCheckpoint remote_db;
       EvSetMetadata "last_sync_at" (isoformat (utc_now w));
       EvSetMetadata "last_sync_direction" "noop"; EvUnlink; EvRmdir].
Proof.
  cbv zeta. split; [vm_compute; reflexivity|].
  split; [done|]. split; [by eexists|]. split; [done|]. split; [done|].
  split; [vm_compute; reflexivity|].
  let run := constr:(Sample.run Sample.merge_none Sample.no_fault BOTH
                       Sample.in_step) in
  apply (in_step_sync_is_noop Sample.merge_none Sample.serialize Sample.path_str
           Sample.no_fault BOTH "Sync" Sample.in_step (Sample.returned run) run.2);
    [vm_compute; reflexivity|done|by eexists|done|done|vm_compute; reflexivity].
Defined.

Lemma result_message_consistent_witness :
  let w := Sample.in_step in
  let run := Sample.run Sample.merge_none Sample.no_fault BOTH w in
  let res := Sample.returned run in
  run = (Returned res, run.2)
  ∧ SyncResult.message res
    = _format_message
        {| MergeStats.local_changes := SyncResult.local_changes res;
           MergeStats.remote_changes := SyncResult.remote_changes res;
           MergeStats.notes_merged := SyncResult.merged_notes res;
           MergeStats.notes_deleted := SyncResult.deleted_notes res |}
        (SyncResult.uploaded res) (SyncResult.downloaded res)
  ∧ (SyncResult.message res = "No changes detected"
     ↔ SyncResult.uploaded res = false ∧ SyncResult.downloaded res = false
       ∧ SyncResult.merged_notes res = 0 ∧ SyncResult.deleted_notes res = 0).
Proof.
  cbv zeta. split; [vm_compute; reflexivity|].
  let run := constr:(Sample.run Sample.merge_none Sample.no_fault BOTH
                       Sample.in_step) in
  apply (result_message_consistent Sample.merge_none Sample.serialize Sample.path_str
           Sample.no_fault BOTH "Sync" Sample.in_step (Sample.returned run) run.2).
  vm_compute; reflexivity.
Defined.
